(** * Personal-Finance-Tracker: the statement pipeline of [src/lib/parser.ts]
    and the CSV export of [src/lib/storage.ts], embedded in Rocq.

    Conventions of the embedding.
    - A JavaScript string is the list of its UTF-16 code units ([list N]).
    - A JavaScript [number] holding an amount is a binary64 float
      ([PrimFloat.float]); NaN and the infinities are values of that type.
    - A [Date] is its time value: an integer number of milliseconds, or the
      NaN of an Invalid Date.
    - A plain object used as a dictionary (a parsed CSV row, the color table)
      is a [gmap]; a [Map], whose iteration order is its insertion order, is an
      association list.
    - What the program obtains from its host (Unicode case tables, the clock,
      the random generator, papaparse, number parsing and printing) is the
      interface [Host]. *)

From Stdlib Require Import ZArith NArith List Bool Lia Ascii String Floats.
From Stdlib Require Import Permutation Sorted DecimalString.
From stdpp Require Import gmap.
Import ListNotations.

Set Warnings "-inexact-float".

(* ================================================================== *)
(** ** Strings *)
(* ================================================================== *)

Abbreviation JSString := (list N).

(** A string literal of the source, one code unit per character. *)
Definition js (s : string) : JSString :=
  List.map N_of_ascii (list_ascii_of_string s).

(** WhiteSpace and LineTerminator code units: what [trim] strips, what the
    regular expression class [\s] matches and what [parseInt] skips. *)
Definition isWhiteSpace (c : N) : bool :=
  ((9 <=? c) && (c <=? 13) || (c =? 32) || (c =? 160) || (c =? 5760)
   || (8192 <=? c) && (c <=? 8202) || (c =? 8232) || (c =? 8233)
   || (c =? 8239) || (c =? 8287) || (c =? 12288) || (c =? 65279))%N.

(** The regular expression class [\d]: the ten ASCII digits. *)
Definition isDigit (c : N) : bool := ((48 <=? c) && (c <=? 57))%N.

(** Lower-casing of a code unit of the Basic Latin and Latin-1 Supplement
    blocks: [A-Z] and U+00C0..U+00DE (the multiplication sign U+00D7 apart)
    move up by 32, every other one is unchanged. *)
Definition latin1Lower (c : N) : N :=
  (if (65 <=? c) && (c <=? 90) then c + 32
   else if (192 <=? c) && (c <=? 222) && negb (c =? 215) then c + 32
   else c)%N.

Fixpoint startsWith (s needle : JSString) {struct needle} : bool :=
  match needle, s with
  | [], _ => true
  | _ :: _, [] => false
  | a :: needle', b :: s' => (a =? b)%N && startsWith s' needle'
  end.

(** [s.includes(needle)] *)
Fixpoint includes (s needle : JSString) : bool :=
  startsWith s needle ||
  match s with
  | [] => false
  | _ :: s' => includes s' needle
  end.

Fixpoint dropWhile (p : N -> bool) (s : JSString) : JSString :=
  match s with
  | [] => []
  | c :: s' => if p c then dropWhile p s' else s
  end.

Definition trimStart (s : JSString) : JSString := dropWhile isWhiteSpace s.
Definition trimEnd (s : JSString) : JSString :=
  rev (dropWhile isWhiteSpace (rev s)).

(** [s.trim()] *)
Definition trim (s : JSString) : JSString := trimEnd (trimStart s).

(** [s.split(sep)] where every separator is a single code unit recognised by
    [isSep]: [split('/')], [split('\n')] and [split(/\d/)].  The result always
    has at least one piece. *)
Fixpoint splitAt (isSep : N -> bool) (s : JSString) : JSString * list JSString :=
  match s with
  | [] => ([], [])
  | c :: s' =>
      let '(piece, pieces) := splitAt isSep s' in
      if isSep c then ([], piece :: pieces) else (c :: piece, pieces)
  end.

Definition split (isSep : N -> bool) (s : JSString) : list JSString :=
  let '(piece, pieces) := splitAt isSep s in piece :: pieces.

(** [s.replace(/[...]/g, '')]: every code unit of the class is removed. *)
Definition removeAll (inClass : N -> bool) (s : JSString) : JSString :=
  List.filter (fun c => negb (inClass c)) s.

(** The replacement of the export: every quotation mark (code unit 34) of
    the string is written twice. *)
Definition doubleQuotes (s : JSString) : JSString :=
  flat_map (fun c => if (c =? 34)%N then [34; 34]%N else [c]) s.

(** [s.substring(a, b)] for [a <= b] *)
Definition substring (a b : nat) (s : JSString) : JSString :=
  firstn (b - a) (skipn a s).

(** [pieces.join(sep)] *)
Fixpoint join (sep : JSString) (pieces : list JSString) : JSString :=
  match pieces with
  | [] => []
  | [p] => p
  | p :: rest => p ++ sep ++ join sep rest
  end.

(** JavaScript's [a || b] on possibly-undefined strings: [undefined] and the
    empty string are falsy. *)
Definition orElse (a : option JSString) (b : JSString) : JSString :=
  match a with
  | Some (c :: s) => c :: s
  | _ => b
  end.

(** [!a] on a possibly-undefined string *)
Definition falsy (a : option JSString) : bool :=
  match a with
  | Some (_ :: _) => false
  | _ => true
  end.

(* ================================================================== *)
(** ** Numbers, dates, arrays and maps *)
(* ================================================================== *)

Open Scope Z_scope.

(** The value of a digit in [parseInt], in any radix up to 36. *)
Definition digitValue (c : N) : option Z :=
  if isDigit c then Some (Z.of_N c - 48)
  else if ((97 <=? c) && (c <=? 122))%N then Some (Z.of_N c - 87)
  else if ((65 <=? c) && (c <=? 90))%N then Some (Z.of_N c - 55)
  else None.

(** The longest prefix of digits of the radix, read as an integer; [None]
    while no digit has been read. *)
Fixpoint readDigits (radix : Z) (s : JSString) (acc : option Z) : option Z :=
  match s with
  | [] => acc
  | c :: s' =>
      match digitValue c with
      | Some d =>
          if d <? radix
          then readDigits radix s' (Some (radix * default 0 acc + d))
          else acc
      | None => acc
      end
  end.

(** [parseInt(s)] with no radix argument; [None] is NaN.  Leading white space
    is skipped, a sign is read, a [0x] or [0X] prefix selects radix 16, and
    the digits stop at the first code unit that is not one.  The integer is
    kept exact; JavaScript rounds it to binary64 above 2^53, far outside the
    years, months and days of any valid date. *)
Definition parseInt (s : JSString) : option Z :=
  let s1 := trimStart s in
  let '(negative, s2) :=
    match s1 with
    | 45%N :: r => (true, r)
    | 43%N :: r => (false, r)
    | _ => (false, s1)
    end in
  let '(radix, s3) :=
    match s2 with
    | 48%N :: 120%N :: r => (16, r)
    | 48%N :: 88%N :: r => (16, r)
    | _ => (10, s2)
    end in
  match readDigits radix s3 None with
  | Some n => Some (if negative then - n else n)
  | None => None
  end.

(** A [Date] object, by its time value. *)
Inductive Date : Type :=
  | InvalidDate
  | DateAt (t : Z).

(** [d.getTime()]; [None] is NaN. *)
Definition getTime (d : Date) : option Z :=
  match d with
  | InvalidDate => None
  | DateAt t => Some t
  end.

Definition msPerDay : Z := 86400000.
Definition maxTime : Z := 8640000000000000.

Definition DayFromYear (y : Z) : Z :=
  365 * (y - 1970) + (y - 1969) / 4 - (y - 1901) / 100 + (y - 1601) / 400.

Definition InLeapYear (y : Z) : bool :=
  (y mod 4 =? 0) && (negb (y mod 100 =? 0) || (y mod 400 =? 0)).

(** The day of the year on which month [mn] (0..11) starts. *)
Definition monthStart (leap : bool) (mn : Z) : Z :=
  nth (Z.to_nat mn) [0; 31; 59; 90; 120; 151; 181; 212; 243; 273; 304; 334] 0
  + (if leap && (2 <=? mn) then 1 else 0).

(** ECMAScript's MakeDay on integral arguments; NaN when the first day of the
    month is outside the range of time values. *)
Definition MakeDay (year month date : Z) : option Z :=
  let ym := year + month / 12 in
  let mn := month mod 12 in
  let day := DayFromYear ym + monthStart (InLeapYear ym) mn in
  if Z.abs (day * msPerDay) <=? maxTime then Some (day + date - 1) else None.

Definition TimeClip (t : Z) : Date :=
  if Z.abs t <=? maxTime then DateAt t else InvalidDate.

(** The sign of what an array comparator returned.  A comparator that
    returns NaN counts as returning zero. *)
Inductive Sign : Type := Negative | Zero | Positive.

Definition signOfNumber (v : float) : Sign :=
  if (v <? 0)%float then Negative
  else if (0 <? v)%float then Positive
  else Zero.

(** The sign of [a - b] for two time values.  Time values are integers of
    magnitude at most [maxTime], so the binary64 difference has the sign of
    the exact one; with a NaN on either side the difference is NaN. *)
Definition signOfTimeDifference (a b : option Z) : Sign :=
  match a, b with
  | Some x, Some y =>
      match x ?= y with
      | Lt => Negative
      | Eq => Zero
      | Gt => Positive
      end
  | _, _ => Zero
  end.

(** [Array.prototype.sort(cmp)]: the stable sort, here by insertion.  An
    element moves behind another only when the comparator is positive on the
    pair.  For a consistent comparator this is the order every conforming
    engine produces. *)
Fixpoint insertSorted {A : Type} (cmp : A -> A -> Sign) (x : A) (l : list A)
  : list A :=
  match l with
  | [] => [x]
  | y :: l' =>
      match cmp x y with
      | Positive => y :: insertSorted cmp x l'
      | _ => x :: l
      end
  end.

Definition sort {A : Type} (cmp : A -> A -> Sign) (l : list A) : list A :=
  fold_right (insertSorted cmp) [] l.

(** [l.slice(0, end)] for an integral [end]: a negative one counts from the
    end of the array. *)
Definition slice0 {A : Type} (end_ : Z) (l : list A) : list A :=
  let len := Z.of_nat (length l) in
  let final := if end_ <? 0 then Z.max (len + end_) 0 else Z.min end_ len in
  firstn (Z.to_nat final) l.

(** A [Map] with string keys: the entries in insertion order. *)
Definition JSMap (V : Type) : Type := list (JSString * V).

Fixpoint Map_get {V : Type} (m : JSMap V) (k : JSString) : option V :=
  match m with
  | [] => None
  | (k', v) :: m' => if decide (k' = k) then Some v else Map_get m' k
  end.

(** [m.set(k, v)]: an existing key keeps its place, a new one goes last. *)
Fixpoint Map_set {V : Type} (m : JSMap V) (k : JSString) (v : V) : JSMap V :=
  match m with
  | [] => [(k, v)]
  | (k', v') :: m' =>
      if decide (k' = k) then (k, v) :: m' else (k', v') :: Map_set m' k v
  end.

(* ================================================================== *)
(** ** The host *)
(* ================================================================== *)

(** What the program takes from the JavaScript engine and from papaparse.
    None of it is code of the repository. *)
Class Host : Type := {
  (** Unicode lower-casing of a code unit above U+00FF, given the code units
      before it (nearest first) and after it. *)
  unicodeLower : list N -> N -> list N -> list N;
  (** [parseFloat] *)
  parseFloat : JSString -> float;
  (** [new Date(s)]: the engine's date-string interpretation. *)
  Date_parse : JSString -> Date;
  (** ECMAScript's UTC(t): a local time value to a UTC one. *)
  UTC : Z -> Z;
  (** [Papa.parse(csv, {header: true, skipEmptyLines: true,
      transformHeader: trim}).data]: one object per data row. *)
  Papa_parse : JSString -> list (gmap JSString JSString);
  (** [n.toFixed(2)] *)
  toFixed2 : float -> JSString;
  (** [d.toLocaleDateString()] *)
  toLocaleDateString : Date -> JSString;
  (** The state the effects below read and advance. *)
  World : Type;
  (** [Math.random().toString(36)] *)
  Math_random_toString36 : World -> JSString * World;
  (** The time value of [new Date()]. *)
  Date_now : World -> Z * World;
}.

(* ================================================================== *)
(** ** types/index.ts *)
(* ================================================================== *)

Record Transaction : Type := {
  id : JSString;
  date : Date;
  description : JSString;
  amount : float;
  category : JSString;
  city : option JSString;      (* [city?: string]; [None] is undefined *)
  state : option JSString;     (* [state?: string] *)
  fileId : JSString;
}.

(** The value objects [{ total, count }] of the two aggregation maps. *)
Module Entry.
Record t : Type := { total : float; count : nat }.
End Entry.

Module CategoryTotal.
Record t : Type := {
  category : JSString;
  total : float;
  count : nat;
  color : JSString;
}.
End CategoryTotal.

Module MerchantTotal.
Record t : Type := { name : JSString; total : float; count : nat }.
End MerchantTotal.

(* ================================================================== *)
(** ** lib/parser.ts and lib/storage.ts *)
(* ================================================================== *)

Section Program.
Context `{host : Host}.

(** Computations that read the clock or the random generator. *)
Definition M (A : Type) : Type := World -> A * World.

Definition ret {A : Type} (a : A) : M A := fun w => (a, w).

Definition bind {A B : Type} (m : M A) (k : A -> M B) : M B :=
  fun w => let '(a, w') := m w in k a w'.

Notation "'let*' x ':=' m 'in' k" := (bind m (fun x => k))
  (at level 10, x name, m at level 100, k at level 200).

Fixpoint forEach {A S : Type} (body : S -> A -> M S) (l : list A) (s : S)
  : M S :=
  match l with
  | [] => ret s
  | a :: l' => let* s' := body s a in forEach body l' s'
  end.

(** [s.toLowerCase()], one code unit at a time; [before] is the part of the
    string already passed, nearest code unit first. *)
Definition lowerUnit (before : list N) (c : N) (after : list N) : list N :=
  if (c <? 256)%N then [latin1Lower c] else unicodeLower before c after.

Fixpoint toLowerCaseFrom (before : list N) (s : JSString) : JSString :=
  match s with
  | [] => []
  | c :: rest => lowerUnit before c rest ++ toLowerCaseFrom (c :: before) rest
  end.

Definition toLowerCase (s : JSString) : JSString := toLowerCaseFrom [] s.

Definition CATEGORY_COLORS : gmap JSString JSString :=
  list_to_map [
    (js "Restaurant", js "#ef4444");
    (js "Groceries", js "#f97316");
    (js "Gas & Fuel", js "#eab308");
    (js "Shopping", js "#22c55e");
    (js "Entertainment", js "#06b6d4");
    (js "Subscriptions", js "#3b82f6");
    (js "Travel", js "#8b5cf6");
    (js "Health", js "#ec4899");
    (js "Fees", js "#6b7280");
    (js "Other", js "#a3a3a3")
  ].

(** The third keyword of the first group as the source file has it: [caf]
    followed by the code units U+00C3 and U+00A9. *)
Definition cafe_keyword : JSString := js "caf" ++ [195; 169]%N.

Definition simplifyCategory (category : JSString) : JSString :=
  let lower := toLowerCase category in
  if includes lower (js "restaurant") || includes lower (js "food")
     || includes lower cafe_keyword || includes lower (js "fast food")
  then js "Restaurant"
  else if includes lower (js "groceries") || includes lower (js "supermarket")
  then js "Groceries"
  else if includes lower (js "gas") || includes lower (js "fuel")
          || includes lower (js "auto")
  then js "Gas & Fuel"
  else if includes lower (js "merchandise") || includes lower (js "supplies")
          || includes lower (js "clothing") || includes lower (js "electronics")
  then js "Shopping"
  else if includes lower (js "entertainment") || includes lower (js "movie")
          || includes lower (js "theater")
  then js "Entertainment"
  else if includes lower (js "computer services")
          || includes lower (js "telecommunications")
  then js "Subscriptions"
  else if includes lower (js "travel") || includes lower (js "airline")
          || includes lower (js "lodging") || includes lower (js "rental")
  then js "Travel"
  else if includes lower (js "drug") || includes lower (js "pharmacy")
          || includes lower (js "health")
  then js "Health"
  else if includes lower (js "fee") || includes lower (js "adjustment")
          || includes lower (js "interest")
  then js "Fees"
  else js "Other".

Definition getCategoryColor (category : JSString) : JSString :=
  let simplified := simplifyCategory category in
  orElse (CATEGORY_COLORS !! simplified)
         (default [] (CATEGORY_COLORS !! js "Other")).

Definition generateId : M JSString :=
  let* a := Math_random_toString36 in
  let* b := Math_random_toString36 in
  ret (substring 2 15 a ++ substring 2 15 b).

(** [new Date(year, month, day)] on numbers that are integers or NaN. *)
Definition Date_ymd (year month day : option Z) : Date :=
  match year, month, day with
  | Some y, Some m, Some d =>
      let yr := if (0 <=? y) && (y <=? 99) then 1900 + y else y in
      match MakeDay yr m d with
      | Some days => TimeClip (UTC (days * msPerDay))
      | None => InvalidDate
      end
  | _, _, _ => InvalidDate
  end.

Definition parseDate (dateStr : JSString) : M Date :=
  let parts := split (N.eqb 47) dateStr in
  if (length parts =? 3)%nat then
    ret (Date_ymd (parseInt (nth 2 parts []))
                  (option_map (fun m => m - 1) (parseInt (nth 0 parts [])))
                  (parseInt (nth 1 parts [])))
  else
    let parsed := Date_parse dateStr in
    match getTime parsed with
    | None => let* now := Date_now in ret (DateAt now)
    | Some _ => ret parsed
    end.

Definition parseAmount (amountStr : JSString) : float :=
  let cleaned :=
    removeAll (fun c => (c =? 36)%N || (c =? 44)%N || isWhiteSpace c)
              amountStr in
  let amount := parseFloat cleaned in
  if is_nan amount then 0%float else amount.

(** The body of the loop of [parseCSV]: [transactions] is the array built so
    far; a [continue] leaves it as it is. *)
Definition parseRow (fileId : JSString) (transactions : list Transaction)
    (row : gmap JSString JSString) : M (list Transaction) :=
  let date := row !! js "Date" in
  let description := row !! js "Description" in
  let amountStr := row !! js "Amount" in
  let category := orElse (row !! js "Category") (js "Other") in
  if falsy date || falsy description || falsy amountStr then ret transactions
  else
    let amount := parseAmount (default [] amountStr) in
    if (amount <=? 0)%float then ret transactions
    else
      let cityState := orElse (row !! js "City/State") [] in
      let parts := List.map trim (split (N.eqb 10) cityState) in
      let city := nth_error parts 0 in
      let state := nth_error parts 1 in
      let* id := generateId in
      let* date := parseDate (default [] date) in
      ret (transactions ++ [ {|
        id := id;
        date := date;
        description := trim (default [] description);
        amount := amount;
        category := simplifyCategory category;
        city := city;
        state := state;
        fileId := fileId;
      |} ]).

Definition parseCSV (csvContent fileId : JSString) : M (list Transaction) :=
  let result := Papa_parse csvContent in
  let* transactions := forEach (parseRow fileId) result [] in
  ret (sort (fun a b =>
               signOfTimeDifference (getTime (date b)) (getTime (date a)))
            transactions).

(** The loop shared, word for word, by [getCategoryTotals] and
    [getTopMerchants]: add one transaction to the entry of its key. *)
Definition addToMap (key : Transaction -> JSString)
    (m : JSMap Entry.t) (transaction : Transaction) : JSMap Entry.t :=
  let existing :=
    default {| Entry.total := 0; Entry.count := 0 |}
            (Map_get m (key transaction)) in
  Map_set m (key transaction) {|
    Entry.total := Entry.total existing + amount transaction;
    Entry.count := Entry.count existing + 1;
  |}.

Definition getCategoryTotals (transactions : list Transaction)
  : list CategoryTotal.t :=
  let categoryMap := fold_left (addToMap category) transactions [] in
  sort (fun a b =>
          signOfNumber (CategoryTotal.total b - CategoryTotal.total a))
       (List.map (fun '(category, data) => {|
           CategoryTotal.category := category;
           CategoryTotal.total := Entry.total data;
           CategoryTotal.count := Entry.count data;
           CategoryTotal.color := getCategoryColor category;
         |}) categoryMap).

(** The merchant name of a transaction: the description up to its first
    digit, trimmed. *)
Definition merchantName (transaction : Transaction) : JSString :=
  trim (nth 0 (split isDigit (description transaction)) []).

Definition getTopMerchants (transactions : list Transaction) (limit : Z)
  : list MerchantTotal.t :=
  let merchantMap := fold_left (addToMap merchantName) transactions [] in
  slice0 limit
    (sort (fun a b =>
             signOfNumber (MerchantTotal.total b - MerchantTotal.total a))
          (List.map (fun '(name, data) => {|
              MerchantTotal.name := name;
              MerchantTotal.total := Entry.total data;
              MerchantTotal.count := Entry.count data;
            |}) merchantMap)).

(** One line of the export: the cells of a transaction. *)
Definition exportRow (t : Transaction) : list JSString :=
  [ toLocaleDateString (date t);
    [34%N] ++ doubleQuotes (description t) ++ [34%N];
    toFixed2 (amount t);
    category t;
    orElse (city t) [];
    orElse (state t) [] ].

Definition exportHeaders : list JSString :=
  [js "Date"; js "Description"; js "Amount"; js "Category"; js "City";
   js "State"].

Definition exportToCSV (transactions : list Transaction) : JSString :=
  let rows := List.map exportRow transactions in
  join [10%N] (join (js ",") exportHeaders :: List.map (join (js ",")) rows).

End Program.

(* ================================================================== *)
(** ** A host to run the program on *)
(* ================================================================== *)

(** An instance of [Host] on which the functions above evaluate: an engine
    in the UTC time zone with the en-US locale, whose date-string
    interpretation accepts the ISO form [YYYY-MM-DD], and a reader of
    comma-separated text.  On the input it accepts it returns what the
    JavaScript engine and papaparse return. *)
Module ExampleHost.

Definition showN (n : N) : JSString :=
  js (NilZero.string_of_uint (N.to_uint n)).

Definition allDigits (s : JSString) : bool :=
  negb (length s =? 0)%nat && forallb isDigit s.

(** The numerator and the number of fraction digits of a decimal literal
    [digits] or [digits.digits]. *)
Definition readDecimal (s : JSString) : option (Z * nat) :=
  match split (N.eqb 46) s with
  | [whole] =>
      if allDigits whole
      then option_map (fun n => (n, 0%nat)) (readDigits 10 whole None)
      else None
  | [whole; fraction] =>
      if allDigits whole && allDigits fraction
      then option_map (fun n => (n, length fraction))
                      (readDigits 10 (whole ++ fraction) None)
      else None
  | _ => None
  end.

Definition floatOfZ (n : Z) : float := PrimFloat.of_uint63 (Uint63.of_Z n).

(** [parseFloat] on an optional minus sign and a decimal literal of at most
    fifteen digits: the quotient of two exactly represented integers is the
    binary64 number nearest to the literal.  Anything else is NaN. *)
Definition readFloat (s : JSString) : float :=
  let '(negative, digits) :=
    match trimStart s with
    | 45%N :: r => (true, r)
    | r => (false, r)
    end in
  match readDecimal digits with
  | Some (n, k) =>
      if (length digits <=? 16)%nat then
        let v := (floatOfZ n / floatOfZ (10 ^ Z.of_nat k))%float in
        if negative then (- v)%float else v
      else nan
  | None => nan
  end.

(** [new Date(s)] for the ISO date form, which is read as UTC midnight. *)
Definition readDate (s : JSString) : Date :=
  match split (N.eqb 45) s with
  | [y; m; d] =>
      if allDigits y && allDigits m && allDigits d
         && (length y =? 4)%nat && (length m =? 2)%nat && (length d =? 2)%nat
      then
        match readDigits 10 y None, readDigits 10 m None,
              readDigits 10 d None with
        | Some y, Some m, Some d =>
            if (1 <=? m) && (m <=? 12) && (1 <=? d) && (d <=? 31)
            then match MakeDay y (m - 1) d with
                 | Some days => TimeClip (days * msPerDay)
                 | None => InvalidDate
                 end
            else InvalidDate
        | _, _, _ => InvalidDate
        end
      else InvalidDate
  | _ => InvalidDate
  end.

(** Year, month (1..12) and day of the month of a day number. *)
Definition civilFromDays (days : Z) : Z * Z * Z :=
  let z := days + 719468 in
  let era := z / 146097 in
  let doe := z - era * 146097 in
  let yoe := (doe - doe / 1460 + doe / 36524 - doe / 146096) / 365 in
  let doy := doe - (365 * yoe + yoe / 4 - yoe / 100) in
  let mp := (5 * doy + 2) / 153 in
  let d := doy - (153 * mp + 2) / 5 + 1 in
  let m := if mp <? 10 then mp + 3 else mp - 9 in
  let y := yoe + era * 400 + (if m <=? 2 then 1 else 0) in
  (y, m, d).

Definition showDate (d : Date) : JSString :=
  match d with
  | InvalidDate => js "Invalid Date"
  | DateAt t =>
      let '(y, m, d) := civilFromDays (t / msPerDay) in
      showN (Z.to_N m) ++ js "/" ++ showN (Z.to_N d) ++ js "/"
      ++ showN (Z.to_N y)
  end.

(** [n.toFixed(2)] for a finite [n] below 10^21: the nearest number of
    hundredths, the larger one on a tie. *)
Definition showFixed2 (x : float) : JSString :=
  match Prim2SF x with
  | S754_nan => js "NaN"
  | S754_infinity s => (if s then js "-" else []) ++ js "Infinity"
  | S754_zero _ => js "0.00"
  | S754_finite s m e =>
      let twice := (* 200 * |x| *)
        if 0 <=? e then 200 * Z.pos m * 2 ^ e
        else (200 * Z.pos m) / 2 ^ (- e) in
      let n := Z.to_N ((twice + 1) / 2) in
      let cents := (n mod 100)%N in
      (if s && negb (n =? 0)%N then js "-" else [])
      ++ showN (n / 100) ++ js "."
      ++ (if (cents <? 10)%N then js "0" else []) ++ showN cents
  end.

(** The reader of comma-separated text: cells are separated by commas and
    rows by line feeds, a cell in quotation marks may hold both (and a
    doubled quotation mark for one), empty lines are skipped.  [cell] and
    [cells] are the current cell and row, last read first. *)
Definition endRow (cell : JSString) (cells : list JSString)
    (rows : list (list JSString)) : list (list JSString) :=
  match cell, cells with
  | [], [] => rows
  | _, _ => rev (rev cell :: cells) :: rows
  end.

Fixpoint scanCsv (s : JSString) (quoted : bool) (cell : JSString)
    (cells : list JSString) (rows : list (list JSString))
  : list (list JSString) :=
  match s with
  | [] => rev (endRow cell cells rows)
  | c :: rest =>
      if quoted then
        if (c =? 34)%N then
          match rest with
          | 34%N :: rest' => scanCsv rest' true (34%N :: cell) cells rows
          | _ => scanCsv rest false cell cells rows
          end
        else scanCsv rest true (c :: cell) cells rows
      else if (c =? 34)%N then scanCsv rest true cell cells rows
      else if (c =? 44)%N then scanCsv rest false [] (rev cell :: cells) rows
      else if (c =? 10)%N then scanCsv rest false [] [] (endRow cell cells rows)
      else scanCsv rest false (c :: cell) cells rows
  end.

(** The first row names the columns; every other row becomes an object. *)
Definition readCsv (csv : JSString) : list (gmap JSString JSString) :=
  match scanCsv csv false [] [] [] with
  | [] => []
  | header :: rows =>
      let names := List.map trim header in
      List.map (fun cells => list_to_map (combine names cells)) rows
  end.

#[export] Instance host : Host := {|
  unicodeLower := fun _ c _ => [c];
  parseFloat := readFloat;
  Date_parse := readDate;
  UTC := fun t => t;
  Papa_parse := readCsv;
  toFixed2 := showFixed2;
  toLocaleDateString := showDate;
  World := nat;
  Math_random_toString36 := fun w => (js "0." ++ showN (N.of_nat w + 4096), S w);
  Date_now := fun w => (1700000000000 + Z.of_nat w, S w);
|}.

End ExampleHost.

(** Statements and record sets the theorems are run on. *)
Module Examples.

(** A statement without a City/State column. *)
Definition statementWithoutCity : JSString :=
  js "Date,Description,Amount,Category" ++ [10%N]
  ++ js "03/15/2024,STARBUCKS #1234,$12.50,Restaurants" ++ [10%N]
  ++ js "03/16/2024,PAYMENT THANK YOU,-45.00,Payment" ++ [10%N].

(** A statement whose City/State cells hold two lines. *)
Definition statementWithCity : JSString :=
  js "Date, Description ,Amount,Category,City/State" ++ [10%N]
  ++ js "03/15/2024,STARBUCKS #1234,$12.50,Restaurants,"
  ++ [34%N] ++ js " Seattle" ++ [10%N] ++ js "WA " ++ [34%N] ++ [10%N]
  ++ js "03/17/2024,7-ELEVEN 3321,abc,Gas," ++ [34%N] ++ js "Tacoma"
  ++ [10%N] ++ js "WA" ++ [34%N] ++ [10%N].

Definition purchase (description category : string) (amount : float)
  : Transaction :=
  {| id := js "t"; date := DateAt 1710460800000;
     description := js description; amount := amount;
     category := js category; city := Some []; state := None;
     fileId := js "f1" |}.

(** Three purchases in two categories. *)
Definition purchases : list Transaction :=
  [purchase "CORNER BISTRO 12" "Restaurant" 0.1;
   purchase "WHOLE FOODS 1055" "Groceries" 0.7;
   purchase "7-ELEVEN 3321" "Restaurant" 0.3].

(** A purchase whose city holds a comma. *)
Definition purchaseInPortland : Transaction :=
  {| id := js "t"; date := DateAt 1710460800000;
     description := js "POWELLS BOOKS"; amount := 18.5;
     category := js "Shopping"; city := Some (js "Portland, OR");
     state := None; fileId := js "f1" |}.

(** A purchase whose description holds quotation marks, a comma and a line
    feed. *)
Definition purchaseQuoted : Transaction :=
  {| id := js "t"; date := DateAt 1710460800000;
     description :=
       js "THE " ++ [34%N] ++ js "BISTRO" ++ [34%N] ++ js ", INC"
       ++ [10%N] ++ js "12";
     amount := 12.5; category := js "Restaurant"; city := Some [];
     state := None; fileId := js "f1" |}.

End Examples.

(* ================================================================== *)
(** ** Specification vocabulary *)
(* ================================================================== *)

(** [keyword] occurs in [s] in some casing: a run of Latin-1 code units of
    [s] lower-cases to it. *)
Definition containsIgnoringCase (s keyword : JSString) : Prop :=
  exists p w q,
    s = p ++ w ++ q /\ Forall (fun c => (c < 256)%N) w
    /\ List.map latin1Lower w = keyword.

(** The ten canonical categories. *)
Definition canonicalCategories : list JSString :=
  [js "Restaurant"; js "Groceries"; js "Gas & Fuel"; js "Shopping";
   js "Entertainment"; js "Subscriptions"; js "Travel"; js "Health";
   js "Fees"; js "Other"].

(** The sum the pages of the application compute with
    [reduce((sum, t) => sum + t.amount, 0)]. *)
Definition sumOfAmounts (l : list Transaction) : float :=
  fold_left (fun sum t => (sum + amount t)%float) l 0%float.

(** The transactions of [l] whose key is [k], in the order of [l]. *)
Definition withKey (key : Transaction -> JSString) (k : JSString)
    (l : list Transaction) : list Transaction :=
  List.filter (fun t => bool_decide (key t = k)) l.

(** The entry a key must have once [l] has been added up. *)
Definition entryFor (key : Transaction -> JSString) (l : list Transaction)
    (k : JSString) : Entry.t :=
  {| Entry.total := sumOfAmounts (withKey key k l);
     Entry.count := length (withKey key k l) |}.

(** The distinct values of a list of strings. *)
Definition distinct (l : list JSString) : list JSString :=
  nodup (List.list_eq_dec N.eq_dec) l.

(** The description starts with a digit. *)
Definition leadingDigit (t : Transaction) : bool :=
  match description t with
  | c :: _ => isDigit c
  | [] => false
  end.

(** The sum of the counts of a map of entries. *)
Definition countSum (m : JSMap Entry.t) : nat :=
  list_sum (List.map (fun kv => Entry.count (snd kv)) m).

(** [m] is what the aggregation loop has built once the transactions [l]
    have gone through it. *)
Definition addedUp (key : Transaction -> JSString) (l : list Transaction)
    (m : JSMap Entry.t) : Prop :=
  List.NoDup (List.map fst m)
  /\ (forall k,
        Map_get m k
        = match withKey key k l with
          | [] => None
          | _ :: _ => Some (entryFor key l k)
          end)
  /\ countSum m = length l.

(** The totals of a list of category totals, added up like the amounts. *)
Definition sumOfTotals (l : list CategoryTotal.t) : float :=
  fold_left (fun sum e => (sum + CategoryTotal.total e)%float) l 0%float.

(** A cell that can be written without quotation marks: it holds no
    quotation mark, no comma and no line feed. *)
Definition plain (s : JSString) : bool :=
  forallb (fun c => negb ((c =? 34)%N || (c =? 44)%N || (c =? 10)%N)) s.

(** The five cells of a record that the export writes as they are. *)
Definition plainCells `{host : Host} (t : Transaction) : bool :=
  plain (toLocaleDateString (date t)) && plain (toFixed2 (amount t))
  && plain (category t) && plain (orElse (city t) [])
  && plain (orElse (state t) []).

(** The rows of cells of a text of comma-separated values, as a reader of
    such text takes them: cells end at a comma and rows at a line feed,
    except between quotation marks, where a doubled quotation mark stands
    for one. *)
Definition readRows (csv : JSString) : list (list JSString) :=
  ExampleHost.scanCsv csv false [] [] [].

(** A line that reads as one row of cells, whether a further line follows
    or the text ends with it. *)
Definition lineReads (line : JSString) (cells : list JSString) : Prop :=
  forall rows,
    (forall rest,
        ExampleHost.scanCsv (line ++ 10%N :: rest) false [] [] rows
        = ExampleHost.scanCsv rest false [] [] (cells :: rows))
    /\ ExampleHost.scanCsv line false [] [] rows = rev (cells :: rows).

(** What [parseCSV] makes of a row it keeps. *)
Definition builtFrom `{host : Host} (file : JSString)
    (row : gmap JSString JSString) (t : Transaction) : Prop :=
  falsy (row !! js "Date") = false
  /\ falsy (row !! js "Description") = false
  /\ falsy (row !! js "Amount") = false
  /\ amount t = parseAmount (default [] (row !! js "Amount"))
  /\ (amount t <=? 0)%float = false
  /\ description t = trim (default [] (row !! js "Description"))
  /\ category t = simplifyCategory (orElse (row !! js "Category") (js "Other"))
  /\ city t
     = nth_error (List.map trim
                    (split (N.eqb 10) (orElse (row !! js "City/State") []))) 0
  /\ state t
     = nth_error (List.map trim
                    (split (N.eqb 10) (orElse (row !! js "City/State") []))) 1
  /\ fileId t = file.

(* ================================================================== *)
(** ** The rest of the program *)
(* ================================================================== *)

(** What the remaining functions take from the engine: the calendar of the
    local time zone, string collation, and the browser's JSON codec and
    ISO date printer. *)
Class Calendar : Type := {
  (** The year and the month (0..11) of a time value, in local time. *)
  localYear : Z -> Z;
  localMonth : Z -> Z;
}.

Class Collation : Type := {
  (** The sign of [a.localeCompare(b)]. *)
  localeCompare : JSString -> JSString -> Sign;
}.

Module StatementFile.
Record t : Type := {
  id : JSString;
  filename : JSString;
  uploadDate : Date;
  transactions : list Transaction;
}.
End StatementFile.

Module MonthlySpending.
Record t : Type := { month : JSString; total : float }.
End MonthlySpending.

(** The objects [saveFiles] hands to [JSON.stringify]: the dates are ISO
    strings. *)
Module Stored.
Record transaction : Type := {
  id : JSString;
  date : JSString;
  description : JSString;
  amount : float;
  category : JSString;
  city : option JSString;
  state : option JSString;
  fileId : JSString;
}.
Record file : Type := {
  file_id : JSString;
  filename : JSString;
  uploadDate : JSString;
  transactions : list transaction;
}.
End Stored.

Class Browser : Type := {
  (** [typeof window !== 'undefined'] *)
  hasWindow : bool;
  (** [d.toISOString()] of a valid date, by its time value. *)
  toISOString : Z -> JSString;
  (** [JSON.stringify] of the array [saveFiles] builds. *)
  JSON_stringify : list Stored.file -> JSString;
  (** [JSON.parse] of a stored text, read at the type [loadFiles] gives it;
      [None] when the parse, or the traversal of its result, throws. *)
  JSON_parse : JSString -> option (list Stored.file);
}.

(** A call that returns or throws. *)
Inductive Outcome (A : Type) : Type :=
  | Returned (a : A)
  | Thrown.
Arguments Returned {A} a.
Arguments Thrown {A}.

(** [l.map(f)] where [f] may throw: the first exception ends the call. *)
Fixpoint mapOutcome {A B : Type} (f : A -> Outcome B) (l : list A)
  : Outcome (list B) :=
  match l with
  | [] => Returned []
  | a :: l' =>
      match f a with
      | Thrown => Thrown
      | Returned b =>
          match mapOutcome f l' with
          | Thrown => Thrown
          | Returned bs => Returned (b :: bs)
          end
      end
  end.

(** [a < b] on two [Date] objects: the comparison of their time values,
    false when either is NaN. *)
Definition dateLess (a b : Date) : bool :=
  match getTime a, getTime b with
  | Some x, Some y => x <? y
  | _, _ => false
  end.

(** A number in a boolean position: zero and NaN are falsy. *)
Definition truthyNumber (v : float) : bool :=
  negb ((v =? 0)%float || is_nan v).

(** [String(n)] for a number that is an integer or NaN. *)
Definition numberToString (n : option Z) : JSString :=
  match n with
  | None => js "NaN"
  | Some z => js (NilZero.string_of_int (Z.to_int z))
  end.

(** [s.padStart(2, '0')] *)
Definition padStart2 (s : JSString) : JSString :=
  repeat 48%N (2 - length s) ++ s.

(** The opposite sign: what multiplying a comparator by -1 does. *)
Definition oppositeSign (s : Sign) : Sign :=
  match s with
  | Negative => Positive
  | Zero => Zero
  | Positive => Negative
  end.

Section Program2.
Context `{host : Host} `{calendar : Calendar} `{collation : Collation}
        `{browser : Browser}.

Definition createStatementFile (filename csvContent : JSString)
  : World -> StatementFile.t * World :=
  bind generateId (fun fileId =>
  bind (parseCSV csvContent fileId) (fun transactions =>
  bind Date_now (fun now =>
  ret {| StatementFile.id := fileId;
         StatementFile.filename := filename;
         StatementFile.uploadDate := DateAt now;
         StatementFile.transactions := transactions |}))).

(** [d.getFullYear()] and [d.getMonth()]; NaN on an Invalid Date. *)
Definition getFullYear (d : Date) : option Z := option_map localYear (getTime d).
Definition getMonth (d : Date) : option Z := option_map localMonth (getTime d).

(** The key of [getMonthlySpending]: the year, a hyphen, and the month
    number padded to two characters. *)
Definition monthKey (transaction : Transaction) : JSString :=
  numberToString (getFullYear (date transaction)) ++ js "-"
  ++ padStart2 (numberToString
                  (option_map (fun m => m + 1) (getMonth (date transaction)))).

(** The loop of [getMonthlySpending].  The running total is read with
    [|| 0]: a missing one, a zero and a NaN all count as 0. *)
Definition addToMonth (m : JSMap float) (transaction : Transaction)
  : JSMap float :=
  let existing :=
    match Map_get m (monthKey transaction) with
    | Some v => if truthyNumber v then v else 0%float
    | None => 0%float
    end in
  Map_set m (monthKey transaction) (existing + amount transaction)%float.

Definition getMonthlySpending (transactions : list Transaction)
  : list MonthlySpending.t :=
  let monthlyMap := fold_left addToMonth transactions [] in
  sort (fun a b =>
          localeCompare (MonthlySpending.month a) (MonthlySpending.month b))
       (List.map (fun '(month, total) =>
                    {| MonthlySpending.month := month;
                       MonthlySpending.total := total |})
                 monthlyMap).

(** The test of [filterTransactionsByDateRange]; a bound that is undefined
    is [None]. *)
Definition inDateRange (from to : option Date) (t : Transaction) : bool :=
  if match from with Some f => dateLess (date t) f | None => false end
  then false
  else if match to with Some u => dateLess u (date t) | None => false end
  then false
  else true.

Definition filterTransactionsByDateRange (transactions : list Transaction)
    (from to : option Date) : list Transaction :=
  List.filter (inDateRange from to) transactions.

(** storage.ts *)

Definition STORAGE_KEY : JSString := js "finance_app_files".

Definition Date_toISOString (d : Date) : Outcome JSString :=
  match d with
  | InvalidDate => Thrown
  | DateAt t => Returned (toISOString t)
  end.

Definition storeTransaction (t : Transaction) : Outcome Stored.transaction :=
  match Date_toISOString (date t) with
  | Thrown => Thrown
  | Returned iso =>
      Returned {| Stored.id := id t; Stored.date := iso;
                  Stored.description := description t;
                  Stored.amount := amount t; Stored.category := category t;
                  Stored.city := city t; Stored.state := state t;
                  Stored.fileId := fileId t |}
  end.

Definition storeFile (f : StatementFile.t) : Outcome Stored.file :=
  match Date_toISOString (StatementFile.uploadDate f) with
  | Thrown => Thrown
  | Returned iso =>
      match mapOutcome storeTransaction (StatementFile.transactions f) with
      | Thrown => Thrown
      | Returned ts =>
          Returned {| Stored.file_id := StatementFile.id f;
                      Stored.filename := StatementFile.filename f;
                      Stored.uploadDate := iso;
                      Stored.transactions := ts |}
      end
  end.

(** [localStorage] is the map from keys to stored texts. *)
Definition saveFiles (files : list StatementFile.t)
    (localStorage : gmap JSString JSString)
  : Outcome (gmap JSString JSString) :=
  if negb hasWindow then Returned localStorage
  else
    match mapOutcome storeFile files with
    | Thrown => Thrown
    | Returned serialized =>
        Returned (<[STORAGE_KEY := JSON_stringify serialized]> localStorage)
    end.

Definition loadTransaction (t : Stored.transaction) : Transaction :=
  {| id := Stored.id t; date := Date_parse (Stored.date t);
     description := Stored.description t; amount := Stored.amount t;
     category := Stored.category t; city := Stored.city t;
     state := Stored.state t; fileId := Stored.fileId t |}.

Definition loadFile (f : Stored.file) : StatementFile.t :=
  {| StatementFile.id := Stored.file_id f;
     StatementFile.filename := Stored.filename f;
     StatementFile.uploadDate := Date_parse (Stored.uploadDate f);
     StatementFile.transactions :=
       List.map loadTransaction (Stored.transactions f) |}.

Definition loadFiles (localStorage : gmap JSString JSString)
  : list StatementFile.t :=
  if negb hasWindow then []
  else
    match localStorage !! STORAGE_KEY with
    | None => []
    | Some [] => []
    | Some stored =>
        match JSON_parse stored with
        | Some parsed => List.map loadFile parsed
        | None => []
        end
    end.

Definition clearFiles (localStorage : gmap JSString JSString)
  : gmap JSString JSString :=
  if negb hasWindow then localStorage else delete STORAGE_KEY localStorage.

Definition getAllTransactions (files : list StatementFile.t)
  : list Transaction :=
  sort (fun a b =>
          signOfTimeDifference (getTime (date b)) (getTime (date a)))
       (flat_map StatementFile.transactions files).

End Program2.

(** The list of the Transactions page: its filters and its sort order. *)
Module TransactionsPage.

Inductive SortField : Type := ByDate | ByAmount | ByCategory.
Inductive SortDir : Type := Asc | Desc.

Record State : Type := {
  search : JSString;
  sortField : SortField;
  sortDir : SortDir;
  categoryFilter : JSString;
  minAmount : JSString;
  maxAmount : JSString;
}.

Section Page.
Context `{host : Host} `{collation : Collation}.

(** [field && field.toLowerCase().includes(searchLower)] *)
Definition optionalIncludes (field : option JSString) (searchLower : JSString)
  : bool :=
  match field with
  | Some (c :: s) => includes (toLowerCase (c :: s)) searchLower
  | _ => false
  end.

Definition matches (st : State) (t : Transaction) : bool :=
  let searchLower := toLowerCase (search st) in
  let matchesSearch :=
    includes (toLowerCase (description t)) searchLower
    || includes (toLowerCase (category t)) searchLower
    || optionalIncludes (city t) searchLower
    || optionalIncludes (state t) searchLower in
  let matchesCategory :=
    bool_decide (categoryFilter st = js "all")
    || bool_decide (category t = categoryFilter st) in
  let min :=
    match minAmount st with [] => 0%float | s => parseFloat s end in
  let max :=
    match maxAmount st with [] => infinity | s => parseFloat s end in
  let matchesAmount := ((min <=? amount t) && (amount t <=? max))%float in
  matchesSearch && matchesCategory && matchesAmount.

Definition compareRows (st : State) (a b : Transaction) : Sign :=
  let multiplier := match sortDir st with Asc => 1%float | Desc => (-1)%float end in
  match sortField st with
  | ByDate =>
      let s := signOfTimeDifference (getTime (date a)) (getTime (date b)) in
      match sortDir st with Asc => s | Desc => oppositeSign s end
  | ByAmount => signOfNumber ((amount a - amount b) * multiplier)%float
  | ByCategory =>
      let s := localeCompare (category a) (category b) in
      match sortDir st with Asc => s | Desc => oppositeSign s end
  end.

Definition filteredTransactions (transactions : list Transaction) (st : State)
  : list Transaction :=
  sort (compareRows st) (List.filter (matches st) transactions).

End Page.
End TransactionsPage.

(* ================================================================== *)
(** ** Vocabulary and examples for the rest of the program *)
(* ================================================================== *)

(** The row passes the guards of [parseCSV]: the three required cells are
    present and not empty, and the amount parses to a positive number. *)
Definition keepRow `{host : Host} (row : gmap JSString JSString) : bool :=
  negb (falsy (row !! js "Date") || falsy (row !! js "Description")
        || falsy (row !! js "Amount"))
  && negb (parseAmount (default [] (row !! js "Amount")) <=? 0)%float.

(** What a record holds apart from its identifier and its date. *)
Definition payload (t : Transaction)
  : JSString * float * JSString * option JSString * option JSString * JSString :=
  (description t, amount t, category t, city t, state t, fileId t).

(** The same six fields, read off a row. *)
Definition rowPayload `{host : Host} (file : JSString)
    (row : gmap JSString JSString)
  : JSString * float * JSString * option JSString * option JSString * JSString :=
  let parts :=
    List.map trim (split (N.eqb 10) (orElse (row !! js "City/State") [])) in
  (trim (default [] (row !! js "Description")),
   parseAmount (default [] (row !! js "Amount")),
   simplifyCategory (orElse (row !! js "Category") (js "Other")),
   nth_error parts 0, nth_error parts 1, file).


(** Every record is dated, and dated no earlier than each record after it;
    and the same with no later. *)
Definition latestFirst (l : list Transaction) : Prop :=
  StronglySorted
    (fun a b => exists x y, getTime (date a) = Some x
                            /\ getTime (date b) = Some y /\ y <= x) l.

Definition earliestFirst (l : list Transaction) : Prop :=
  StronglySorted
    (fun a b => exists x y, getTime (date a) = Some x
                            /\ getTime (date b) = Some y /\ x <= y) l.

(** The running total of a month as [getMonthlySpending] keeps it: before
    each addition a total that is zero or NaN is replaced by 0. *)
Definition resettingSum (l : list Transaction) : float :=
  fold_left (fun sum t =>
               ((if truthyNumber sum then sum else 0) + amount t)%float)
            l 0%float.

(** Comparison of strings by code units, and a calendar and a collation to
    run the program on: the UTC calendar and the code-unit order. *)
Module ExampleEngine.

Fixpoint compareCodeUnits (a b : JSString) : Sign :=
  match a, b with
  | [], [] => Zero
  | [], _ :: _ => Negative
  | _ :: _, [] => Positive
  | x :: a', y :: b' =>
      match (x ?= y)%N with
      | Lt => Negative
      | Gt => Positive
      | Eq => compareCodeUnits a' b'
      end
  end.

#[export] Instance calendar : Calendar := {|
  localYear := fun t =>
    let '(y, m, d) := ExampleHost.civilFromDays (t / msPerDay) in y;
  localMonth := fun t =>
    let '(y, m, d) := ExampleHost.civilFromDays (t / msPerDay) in m - 1;
|}.

#[export] Instance collation : Collation := {|
  localeCompare := compareCodeUnits;
|}.

(** A browser with a window, whose JSON codec the examples never reach. *)
#[export] Instance browser : Browser := {|
  hasWindow := true;
  toISOString := fun t => js (NilZero.string_of_int (Z.to_int t));
  JSON_stringify := fun _ => js "[]";
  JSON_parse := fun _ => None;
|}.

(** A purchase on a given day. *)
Definition purchaseOn (time : Z) (description : string) (amount : float)
  : Transaction :=
  {| id := js "t"; date := DateAt time; description := js description;
     amount := amount; category := js "Other"; city := Some [];
     state := None; fileId := js "f1" |}.

(** Two purchases in March 2024 and one in April. *)
Definition purchases : list Transaction :=
  [purchaseOn 1710460800000 "BAKERY" 1.5;
   purchaseOn 1712016000000 "BOOKS" 20;
   purchaseOn 1711929599000 "TRAIN" 2.5].

(** A statement of three rows, not in the order of their dates. *)
Definition statementOfThree : JSString :=
  js "Date,Description,Amount,Category" ++ [10%N]
  ++ js "03/15/2024,BAKERY,1.50,Food" ++ [10%N]
  ++ js "04/02/2024,BOOKS 12,20.00,Shopping" ++ [10%N]
  ++ js "03/31/2024,TRAIN,2.50,Travel" ++ [10%N].

(** The Transactions page as it opens, but sorted by ascending date. *)
Definition openedPage : TransactionsPage.State :=
  {| TransactionsPage.search := [];
     TransactionsPage.sortField := TransactionsPage.ByDate;
     TransactionsPage.sortDir := TransactionsPage.Asc;
     TransactionsPage.categoryFilter := js "all";
     TransactionsPage.minAmount := [];
     TransactionsPage.maxAmount := [] |}.

(** A document whose upload date is an Invalid Date. *)
Definition undatedFile : StatementFile.t :=
  {| StatementFile.id := js "f1"; StatementFile.filename := js "a.csv";
     StatementFile.uploadDate := InvalidDate;
     StatementFile.transactions := [] |}.

(** Purchases, a refund and an amount of zero. *)
Definition purchasesAndRefund : list Transaction :=
  [purchaseOn 1710460800000 "BAKERY" 1.5;
   purchaseOn 1710547200000 "REFUND" (-20);
   purchaseOn 1712016000000 "ZERO" 0;
   purchaseOn 1711929599000 "TRAIN" 2.5].

End ExampleEngine.

(* ================================================================== *)
(** ** Strings: substring search and lower-casing *)
(* ================================================================== *)

Lemma startsWith_app (w q : JSString) : startsWith (w ++ q) w = true.
Proof.
  induction w as [|c w IH]; simpl; [reflexivity|].
  now rewrite N.eqb_refl, IH.
Qed.

Lemma includes_here (s needle : JSString) :
  startsWith s needle = true -> includes s needle = true.
Proof. destruct s; simpl; intros ->; reflexivity. Qed.

Lemma includes_later (p s needle : JSString) :
  includes s needle = true -> includes (p ++ s) needle = true.
Proof.
  intros Hs. induction p as [|c p IH]; simpl; [exact Hs|].
  rewrite IH. apply orb_true_r.
Qed.

Lemma includes_middle (p w q : JSString) : includes (p ++ w ++ q) w = true.
Proof. apply includes_later, includes_here, startsWith_app. Qed.

Section Lowering.
Context `{host : Host}.

Lemma toLowerCaseFrom_latin1 (w q before : list N) :
  Forall (fun c => (c < 256)%N) w ->
  toLowerCaseFrom before (w ++ q)
  = List.map latin1Lower w ++ toLowerCaseFrom (rev w ++ before) q.
Proof.
  intros Hw. revert before.
  induction Hw as [|c w Hc _ IH]; intros before; simpl; [reflexivity|].
  unfold lowerUnit. apply N.ltb_lt in Hc. rewrite Hc. simpl.
  rewrite IH, <- app_assoc. reflexivity.
Qed.

Lemma toLowerCaseFrom_prefix (p r before : list N) :
  exists x,
    toLowerCaseFrom before (p ++ r)
    = x ++ toLowerCaseFrom (rev p ++ before) r.
Proof.
  revert before. induction p as [|c p IH]; intros before; simpl.
  - now exists [].
  - destruct (IH (c :: before)) as [x Hx]. rewrite Hx.
    exists (lowerUnit before c (p ++ r) ++ x).
    now rewrite <- !app_assoc.
Qed.

(** A keyword that occurs in some casing is found in the lower-cased
    string. *)
Lemma includes_toLowerCase (s keyword : JSString) :
  containsIgnoringCase s keyword ->
  includes (toLowerCase s) keyword = true.
Proof.
  intros (p & w & q & -> & Hw & <-). unfold toLowerCase.
  destruct (toLowerCaseFrom_prefix p (w ++ q) []) as [x ->].
  rewrite (toLowerCaseFrom_latin1 w q _ Hw).
  apply includes_middle.
Qed.

End Lowering.

(* ================================================================== *)
(** ** The category normalizer and the color table *)
(* ================================================================== *)

Ltac occurs_at p w q :=
  exists p, w, q; split; [reflexivity | split; [repeat constructor | reflexivity]].

(** C7: a string that contains both [restaurant] and [fee], in any casing,
    normalizes to [Restaurant]: the Restaurant group is tested first and the
    first group that matches decides. *)
Theorem simplifyCategory_restaurant_before_fee `{host : Host} (s : JSString) :
  containsIgnoringCase s (js "restaurant") ->
  containsIgnoringCase s (js "fee") ->
  simplifyCategory s = js "Restaurant".
Proof.
  intros Hrestaurant _. unfold simplifyCategory.
  rewrite (includes_toLowerCase s _ Hrestaurant). reflexivity.
Qed.

Lemma simplifyCategory_restaurant_before_fee_witness :
  containsIgnoringCase (js "Late FEE - Restaurant") (js "restaurant")
  /\ containsIgnoringCase (js "Late FEE - Restaurant") (js "fee")
  /\ @simplifyCategory ExampleHost.host (js "Late FEE - Restaurant")
     = js "Restaurant".
Proof.
  assert (Hr : containsIgnoringCase (js "Late FEE - Restaurant") (js "restaurant"))
    by occurs_at (js "Late FEE - ") (js "Restaurant") (@nil N).
  assert (Hf : containsIgnoringCase (js "Late FEE - Restaurant") (js "fee"))
    by occurs_at (js "Late ") (js "FEE") (js " - Restaurant").
  split; [exact Hr | split; [exact Hf |]].
  exact (simplifyCategory_restaurant_before_fee _ Hr Hf).
Defined.

(** C6, as stated, fails: [Cafe] contains [cafe] and normalizes to [Other]. *)
Lemma simplifyCategory_cafe_counterexample :
  containsIgnoringCase (js "Cafe") (js "cafe")
  /\ @simplifyCategory ExampleHost.host (js "Cafe") = js "Other"
  /\ @simplifyCategory ExampleHost.host (js "Cafe") <> js "Restaurant".
Proof.
  split; [occurs_at (@nil N) (js "Cafe") (@nil N) |].
  split; [vm_compute; reflexivity | vm_compute; discriminate].
Qed.

(** C6, amended: a string that contains [restaurant] or [food], in any
    casing, normalizes to [Restaurant]. *)
Theorem simplifyCategory_restaurant_group `{host : Host} (s : JSString) :
  containsIgnoringCase s (js "restaurant")
  \/ containsIgnoringCase s (js "food") ->
  simplifyCategory s = js "Restaurant".
Proof.
  intros [H | H]; unfold simplifyCategory.
  - rewrite (includes_toLowerCase s _ H). reflexivity.
  - rewrite (includes_toLowerCase s _ H), orb_true_r. reflexivity.
Qed.

Lemma simplifyCategory_restaurant_group_witness :
  (containsIgnoringCase (js "Fast Food") (js "restaurant")
   \/ containsIgnoringCase (js "Fast Food") (js "food"))
  /\ @simplifyCategory ExampleHost.host (js "Fast Food") = js "Restaurant".
Proof.
  assert (H : containsIgnoringCase (js "Fast Food") (js "food"))
    by occurs_at (js "Fast ") (js "Food") (@nil N).
  split; [right; exact H |].
  apply simplifyCategory_restaurant_group. right; exact H.
Defined.

(** The normalizer applied to its own outputs: eight canonical names are
    fixed points, [Shopping] and [Subscriptions] fall through to [Other]. *)
Lemma simplifyCategory_canonical `{host : Host} :
  List.map simplifyCategory canonicalCategories
  = [js "Restaurant"; js "Groceries"; js "Gas & Fuel"; js "Other";
     js "Entertainment"; js "Other"; js "Travel"; js "Health"; js "Fees";
     js "Other"].
Proof. vm_compute. reflexivity. Qed.

(** C3, evaluated: [getCategoryColor] normalizes its argument again, so for
    the canonical names [Shopping] and [Subscriptions] it returns the color
    of [Other] and not the color the table gives them. *)
Theorem getCategoryColor_Shopping_Subscriptions `{host : Host} :
  getCategoryColor (js "Shopping") = js "#a3a3a3"
  /\ CATEGORY_COLORS !! js "Shopping" = Some (js "#22c55e")
  /\ getCategoryColor (js "Subscriptions") = js "#a3a3a3"
  /\ CATEGORY_COLORS !! js "Subscriptions" = Some (js "#3b82f6").
Proof. repeat split; vm_compute; reflexivity. Qed.

(** For the other eight canonical names the table color is returned. *)
Lemma getCategoryColor_canonical `{host : Host} (c : JSString) :
  In c canonicalCategories ->
  c <> js "Shopping" -> c <> js "Subscriptions" ->
  CATEGORY_COLORS !! c = Some (getCategoryColor c).
Proof.
  intros Hc Hshopping Hsubscriptions.
  repeat (destruct Hc as [<- | Hc];
          [first [vm_compute; reflexivity
                 | exfalso; apply Hshopping; reflexivity
                 | exfalso; apply Hsubscriptions; reflexivity] |]).
  destruct Hc.
Qed.

(* ================================================================== *)
(** ** The date parser *)
(* ================================================================== *)

(** Outside the three-part form the parser falls back, first on the engine's
    interpretation and then on the clock, and the date is valid. *)
Lemma parseDate_fallback `{host : Host} (dateStr : JSString) (w : World) :
  length (split (N.eqb 47) dateStr) <> 3%nat ->
  fst (parseDate dateStr w)
  = match Date_parse dateStr with
    | InvalidDate => DateAt (fst (Date_now w))
    | DateAt t => DateAt t
    end.
Proof.
  intros Hparts. unfold parseDate.
  destruct (Nat.eqb_spec (length (split (N.eqb 47) dateStr)) 3) as [E|_];
    [contradiction|].
  destruct (Date_parse dateStr); simpl; [|reflexivity].
  unfold bind, ret. destruct (Date_now w). reflexivity.
Qed.

Lemma parseDate_fallback_valid `{host : Host} (dateStr : JSString) (w : World) :
  length (split (N.eqb 47) dateStr) <> 3%nat ->
  getTime (fst (parseDate dateStr w)) <> None.
Proof.
  intros Hparts. rewrite (parseDate_fallback _ _ Hparts).
  destruct (Date_parse dateStr); discriminate.
Qed.

(** C2, evaluated: a string of three slash-separated parts is never checked.
    With a part that is not a number, or with a year outside the range of
    dates, the parser returns an Invalid Date instead of the current date. *)
Theorem parseDate_three_parts_invalid `{host : Host} (w : World) :
  fst (parseDate (js "a/b/c") w) = InvalidDate
  /\ fst (parseDate (js "1/1/999999999") w) = InvalidDate.
Proof. split; vm_compute; reflexivity. Qed.

(* ================================================================== *)
(** ** Binary64 comparisons *)
(* ================================================================== *)

Lemma Prim2SF_zero : Prim2SF 0 = S754_zero false.
Proof. reflexivity. Qed.

(** A number that is neither NaN nor [<= 0] is [> 0]. *)
Lemma float_positive (a : float) :
  is_nan a = false -> (a <=? 0)%float = false -> (0 <? a)%float = true.
Proof.
  unfold is_nan.
  rewrite FloatAxioms.eqb_spec, FloatAxioms.leb_spec, FloatAxioms.ltb_spec,
    Prim2SF_zero.
  destruct (Prim2SF a) as [[]|[]| |[] m e]; cbn; congruence.
Qed.

(** *** The sign of a difference

    The comparators of the program are differences.  Binary64 subtraction
    is the rounding of the exact difference, and rounding does not turn a
    nonzero number into zero: the difference [b - a] is positive exactly when
    [a < b]. *)

Lemma digits2_pos_bounds (m : positive) :
  2 ^ (Z.pos (digits2_pos m) - 1) <= Z.pos m < 2 ^ Z.pos (digits2_pos m).
Proof.
  induction m as [m IH|m IH|]; cbn [digits2_pos].
  - rewrite Pos2Z.inj_succ.
    replace (Z.succ (Z.pos (digits2_pos m)) - 1) with (Z.succ (Z.pos (digits2_pos m) - 1)) by lia.
    rewrite !Z.pow_succ_r by lia. lia.
  - rewrite Pos2Z.inj_succ.
    replace (Z.succ (Z.pos (digits2_pos m)) - 1) with (Z.succ (Z.pos (digits2_pos m) - 1)) by lia.
    rewrite !Z.pow_succ_r by lia. lia.
  - simpl. lia.
Qed.

Lemma shr_1_m (mrs : shr_record) :
  0 <= shr_m mrs -> shr_m (shr_1 mrs) = shr_m mrs / 2.
Proof.
  destruct mrs as [m r s]. cbn [shr_m]. intros Hm.
  destruct m as [|p|p]; [reflexivity| |lia].
  destruct p; cbn [shr_1 shr_m].
  - rewrite Pos2Z.inj_xI. apply Z.div_unique with 1; lia.
  - rewrite Pos2Z.inj_xO. apply Z.div_unique with 0; lia.
  - reflexivity.
Qed.

Lemma iter_shr_1_m (p : positive) (mrs : shr_record) :
  0 <= shr_m mrs ->
  shr_m (SpecFloat.iter_pos shr_1 p mrs) = shr_m mrs / 2 ^ Z.pos p.
Proof.
  revert mrs. induction p as [p IH|p IH|]; intros mrs Hm; cbn [SpecFloat.iter_pos];
    try assert (Hpow : 0 < 2 ^ Z.pos p) by (apply Z.pow_pos_nonneg; lia).
  - assert (H1 : 0 <= shr_m (shr_1 mrs)) by (rewrite shr_1_m by assumption; apply Z.div_pos; lia).
    assert (H2 : 0 <= shr_m (SpecFloat.iter_pos shr_1 p (shr_1 mrs)))
      by (rewrite IH by assumption; apply Z.div_pos; [assumption|apply Z.pow_pos_nonneg; lia]).
    rewrite IH, IH, shr_1_m by assumption.
    rewrite !Z.div_div by lia.
    f_equal.
    assert (E : 2 ^ Z.pos p~1 = 2 * (2 ^ Z.pos p * 2 ^ Z.pos p)).
    { rewrite <- Z.pow_add_r, <- Z.pow_succ_r by lia. f_equal. lia. }
    rewrite E. lia.
  - assert (H2 : 0 <= shr_m (SpecFloat.iter_pos shr_1 p mrs))
      by (rewrite IH by assumption; apply Z.div_pos; [assumption|apply Z.pow_pos_nonneg; lia]).
    rewrite IH, IH by assumption.
    rewrite !Z.div_div by lia.
    f_equal.
    assert (E : 2 ^ Z.pos p~0 = 2 ^ Z.pos p * 2 ^ Z.pos p).
    { rewrite <- Z.pow_add_r by lia. f_equal. lia. }
    rewrite E. lia.
  - rewrite shr_1_m by assumption. reflexivity.
Qed.

Lemma shr_record_of_loc_m m l : shr_m (shr_record_of_loc m l) = m.
Proof. destruct l as [|[]]; reflexivity. Qed.

(** Shifting a positive mantissa to its canonical exponent keeps it positive. *)
Lemma shr_fexp_pos (m : positive) (e : Z) (l : location) :
  (-1074) <= e ->
  0 < shr_m (fst (shr_fexp prec emax (Z.pos m) e l))
  /\ (-1074) <= snd (shr_fexp prec emax (Z.pos m) e l).
Proof.
  intros He. unfold shr_fexp, shr, fexp.
  change (SpecFloat.emin prec emax) with (-1074). cbn [Zdigits2].
  pose proof (digits2_pos_bounds m) as [Hlo Hhi].
  set (d := Z.pos (digits2_pos m)) in *.
  destruct (Z.max (d + e - prec) (-1074) - e) as [|n|n] eqn:Hn;
    cbn [fst snd]; rewrite ?shr_record_of_loc_m; try (split; lia).
  rewrite iter_shr_1_m by (rewrite shr_record_of_loc_m; lia).
  rewrite shr_record_of_loc_m.
  assert (Hnd : Z.pos n = d - prec) by lia.
  split; [|lia].
  apply Z.div_str_pos. split; [apply Z.pow_pos_nonneg; lia|].
  apply Z.le_trans with (2 ^ (d - 1)); [|exact Hlo].
  apply Z.pow_le_mono_r; unfold prec in *; lia.
Qed.

Lemma round_nearest_even_ge (m : Z) (l : location) :
  m <= round_nearest_even m l.
Proof.
  destruct l as [|[]]; cbn [round_nearest_even]; try lia.
  destruct (Z.even m); lia.
Qed.

Lemma binary_round_aux_positive (m : positive) (e : Z) (l : location) :
  -1074 <= e ->
  SFltb (S754_zero false) (binary_round_aux prec emax false (Z.pos m) e l)
  = true.
Proof.
  intros He. unfold binary_round_aux.
  destruct (shr_fexp_pos m e l He) as [Hm1 He1].
  destruct (shr_fexp prec emax (Z.pos m) e l) as [mrs1 e1].
  cbn [fst snd] in Hm1, He1.
  pose proof (round_nearest_even_ge (shr_m mrs1) (loc_of_shr_record mrs1)) as Hr.
  destruct (round_nearest_even (shr_m mrs1) (loc_of_shr_record mrs1))
    as [|m2|m2]; try lia.
  destruct (shr_fexp_pos m2 e1 loc_Exact He1) as [Hm2 _].
  destruct (shr_fexp prec emax (Z.pos m2) e1 loc_Exact) as [mrs2 e2].
  cbn [fst] in Hm2.
  destruct (shr_m mrs2); try lia.
  destruct (e2 <=? emax - prec); reflexivity.
Qed.

Lemma binary_round_aux_not_positive (m e : Z) (l : location) :
  SFltb (S754_zero false) (binary_round_aux prec emax true m e l) = false.
Proof.
  unfold binary_round_aux.
  destruct (shr_fexp prec emax m e l) as [mrs1 e1].
  destruct (shr_fexp prec emax _ e1 loc_Exact) as [mrs2 e2].
  destruct (shr_m mrs2); try reflexivity.
  destruct (e2 <=? emax - prec); reflexivity.
Qed.

Lemma shl_align_exponent (m : positive) (e e' : Z) :
  -1074 <= e -> -1074 <= e' -> -1074 <= snd (shl_align m e e').
Proof. unfold shl_align. destruct (e' - e); cbn [snd]; lia. Qed.

(** The sign of a rounded integer is the sign of the integer: rounding
    never reaches zero from a nonzero value. *)
Lemma binary_normalize_positive (d e : Z) :
  -1074 <= e ->
  SFltb (S754_zero false) (binary_normalize prec emax d e false) = (0 <? d).
Proof.
  intros He. destruct d as [|m|m]; cbn [binary_normalize]; try reflexivity.
  - unfold binary_round.
    assert (Hez := shl_align_exponent m e
                     (fexp prec emax (Z.pos (digits2_pos m) + e)) He).
    destruct (shl_align m e _) as [mz ez]. cbn [snd] in Hez.
    apply binary_round_aux_positive, Hez. unfold fexp.
    change (SpecFloat.emin prec emax) with (-1074). lia.
  - unfold binary_round. destruct (shl_align m e _) as [mz ez].
    apply binary_round_aux_not_positive.
Qed.

Lemma iter_xO (m d : positive) :
  Z.pos (Pos.iter xO m d) = Z.pos m * 2 ^ Z.pos d.
Proof.
  induction d as [|d IH] using Pos.peano_ind.
  - change (Pos.iter xO m 1) with (m~0)%positive. rewrite Z.pow_1_r. lia.
  - rewrite Pos.iter_succ, Pos2Z.inj_xO, IH, Pos2Z.inj_succ, Z.pow_succ_r by lia.
    lia.
Qed.

Lemma shl_align_mantissa (m : positive) (e e' : Z) :
  e' <= e -> Z.pos (fst (shl_align m e e')) = Z.pos m * 2 ^ (e - e').
Proof.
  intros Hle. unfold shl_align.
  destruct (e' - e) as [|d|d] eqn:Hd; cbn [fst]; try lia.
  - replace (e - e') with 0 by lia. lia.
  - rewrite iter_xO. f_equal. f_equal. lia.
Qed.

(** What validity says of a finite number: its exponent is at least the
    least one, its mantissa has at most 53 bits, and exactly 53 above the
    least exponent. *)
Lemma valid_finite (s : bool) (m : positive) (e : Z) :
  valid_binary (S754_finite s m e) = true ->
  -1074 <= e /\ Z.pos m < 2 ^ 53 /\ (-1074 < e -> 2 ^ 52 <= Z.pos m).
Proof.
  cbn [valid_binary]. unfold bounded, canonical_mantissa, fexp.
  change (SpecFloat.emin prec emax) with (-1074). change prec with 53.
  intros H. apply andb_prop in H. destruct H as [H _].
  apply Z.eqb_eq in H.
  pose proof (digits2_pos_bounds m) as [Hlo Hhi].
  set (d := Z.pos (digits2_pos m)) in *.
  assert (Hd : d <= 53) by lia.
  split; [lia|]. split.
  - apply Z.lt_le_trans with (2 ^ d); [exact Hhi|].
    apply Z.pow_le_mono_r; lia.
  - intros He. assert (d = 53) by lia. subst d.
    replace 52 with (Z.pos (digits2_pos m) - 1) by lia. exact Hlo.
Qed.

Lemma SFsub_positive (x y : spec_float) :
  valid_binary x = true -> valid_binary y = true ->
  SFltb (S754_zero false) (SFsub prec emax y x) = SFltb x y.
Proof.
  intros Hx Hy.
  destruct x as [sx|sx| |sx mx ex], y as [sy|sy| |sy my ey];
    try (destruct sx; reflexivity);
    try (destruct sx, sy; reflexivity);
    try (destruct sy; reflexivity); try reflexivity.
  destruct (valid_finite _ _ _ Hx) as (Hex & Hmx & Hnx).
  destruct (valid_finite _ _ _ Hy) as (Hey & Hmy & Hny).
  cbn [SFsub]. rewrite binary_normalize_positive by lia.
  rewrite !shl_align_mantissa by lia.
  unfold SFltb, SFcompare.
  assert (Hpow : forall k, 0 < k -> 2 <= 2 ^ k).
  { intros k Hk. change 2 with (2 ^ 1) at 1. apply Z.pow_le_mono_r; lia. }
  destruct (Z.compare_spec ex ey) as [E|E|E].
  - subst ey. rewrite Z.min_id, Z.sub_diag, Z.pow_0_r, !Z.mul_1_r.
    change (Pos.compare_cont Eq mx my) with (Pos.compare mx my).
    destruct (Pos.compare_spec mx my) as [F|F|F], sx, sy;
      cbn [cond_Zopp CompOpp]; try subst; lia.
  - rewrite Z.min_r by lia. rewrite Z.sub_diag, Z.pow_0_r, Z.mul_1_r.
    specialize (Hpow (ey - ex) ltac:(lia)). specialize (Hny ltac:(lia)).
    assert (Z.pos mx < Z.pos my * 2 ^ (ey - ex)) by nia.
    destruct sx, sy; cbn [cond_Zopp]; lia.
  - rewrite Z.min_l by lia. rewrite Z.sub_diag, Z.pow_0_r, Z.mul_1_r.
    specialize (Hpow (ex - ey) ltac:(lia)). specialize (Hnx ltac:(lia)).
    assert (Z.pos my < Z.pos mx * 2 ^ (ex - ey)) by nia.
    destruct sx, sy; cbn [cond_Zopp]; lia.
Qed.

(** The comparator [b - a] of the two sorts is positive exactly when
    [a < b]. *)
Lemma float_sub_positive (a b : float) :
  (0 <? b - a)%float = (a <? b)%float.
Proof.
  rewrite !FloatAxioms.ltb_spec, FloatAxioms.sub_spec.
  change (Prim2SF 0) with (S754_zero false).
  apply SFsub_positive; apply Prim2SF_valid.
Qed.

Lemma SFltb_asymmetric (x y : spec_float) :
  SFltb x y = true -> SFltb y x = false.
Proof.
  unfold SFltb.
  destruct x as [sx|sx| |sx mx ex], y as [sy|sy| |sy my ey];
    try (destruct sx; try destruct sy; cbn; congruence);
    try (destruct sy; cbn; congruence); try (cbn; congruence).
  cbn [SFcompare].
  rewrite (Z.compare_antisym ex ey).
  change (Pos.compare_cont Eq my mx) with (Pos.compare my mx).
  change (Pos.compare_cont Eq mx my) with (Pos.compare mx my).
  rewrite (Pos.compare_antisym mx my).
  destruct sx, sy, (ex ?= ey), (mx ?= my)%positive; cbn; congruence.
Qed.

Lemma float_lt_asymmetric (a b : float) :
  (a <? b)%float = true -> (b <? a)%float = false.
Proof. rewrite !FloatAxioms.ltb_spec. apply SFltb_asymmetric. Qed.

(* ================================================================== *)
(** ** Sorting keeps the elements *)
(* ================================================================== *)

Lemma insertSorted_Permutation {A : Type} (cmp : A -> A -> Sign) (x : A)
    (l : list A) :
  Permutation (insertSorted cmp x l) (x :: l).
Proof.
  induction l as [|y l IH]; simpl; [reflexivity|].
  destruct (cmp x y); try reflexivity.
  apply perm_trans with (y :: x :: l); [now constructor | apply perm_swap].
Qed.

Lemma sort_Permutation {A : Type} (cmp : A -> A -> Sign) (l : list A) :
  Permutation (sort cmp l) l.
Proof.
  induction l as [|x l IH]; simpl; [reflexivity|].
  eapply perm_trans; [apply insertSorted_Permutation | now constructor].
Qed.

Lemma sort_In {A : Type} (cmp : A -> A -> Sign) (l : list A) (x : A) :
  In x (sort cmp l) <-> In x l.
Proof.
  split; apply Permutation_in; [|symmetry]; apply sort_Permutation.
Qed.

Lemma sort_length {A : Type} (cmp : A -> A -> Sign) (l : list A) :
  length (sort cmp l) = length l.
Proof. apply Permutation_length, sort_Permutation. Qed.

(* ================================================================== *)
(** ** The record builder *)
(* ================================================================== *)

Lemma split_no_separator (isSep : N -> bool) (a : JSString) :
  Forall (fun c => isSep c = false) a -> split isSep a = [a].
Proof.
  unfold split. induction 1 as [|c a Hc _ IH]; simpl; [reflexivity|].
  destruct (splitAt isSep a) as [piece pieces]. rewrite Hc.
  now inversion IH.
Qed.

Lemma split_at_separator (isSep : N -> bool) (a b : JSString) (c : N) :
  Forall (fun c => isSep c = false) a -> isSep c = true ->
  split isSep (a ++ c :: b) = a :: split isSep b.
Proof.
  unfold split. intros Ha Hc. induction Ha as [|d a Hd _ IH]; simpl.
  - destruct (splitAt isSep b) as [piece pieces]. now rewrite Hc.
  - destruct (splitAt isSep (a ++ c :: b)) as [piece pieces].
    destruct (splitAt isSep b) as [piece' pieces']. rewrite Hd.
    now inversion IH.
Qed.

Lemma no_line_break (a : JSString) :
  ~ In 10%N a -> Forall (fun c => (10 =? c)%N = false) a.
Proof.
  intros Ha. apply List.Forall_forall. intros c Hc.
  apply N.eqb_neq. intros <-. exact (Ha Hc).
Qed.

Section Builder.
Context `{host : Host}.

Lemma forEach_appends {A X : Type} (Q : A -> X -> Prop)
    (body : list X -> A -> M (list X)) :
  (forall s a w,
      fst (body s a w) = s
      \/ exists x, fst (body s a w) = s ++ [x] /\ Q a x) ->
  forall l s w x,
    In x (fst (forEach body l s w)) ->
    In x s \/ exists a, In a l /\ Q a x.
Proof.
  intros Hbody l. induction l as [|a l IH]; intros s w x Hx; simpl in Hx.
  - now left.
  - unfold bind in Hx. specialize (Hbody s a w).
    destruct (body s a w) as [s' w']. simpl in Hbody.
    apply IH in Hx. destruct Hx as [Hx | (a' & Ha' & Hq)].
    + destruct Hbody as [-> | (y & -> & Hy)]; [now left|].
      apply in_app_or in Hx. destruct Hx as [Hx | [<- | []]]; [now left|].
      right. exists a. split; [now left | exact Hy].
    + right. exists a'. split; [now right | exact Hq].
Qed.

Lemma parseRow_cases (file : JSString) (transactions : list Transaction)
    (row : gmap JSString JSString) (w : World) :
  fst (parseRow file transactions row w) = transactions
  \/ exists t,
       fst (parseRow file transactions row w) = transactions ++ [t]
       /\ builtFrom file row t.
Proof.
  unfold parseRow.
  destruct (falsy (row !! js "Date")) eqn:Hdate; [now left|].
  destruct (falsy (row !! js "Description")) eqn:Hdescription; [now left|].
  destruct (falsy (row !! js "Amount")) eqn:Hamount; [now left|].
  cbn [orb].
  match goal with
  | |- context [PrimFloat.leb ?a ?b] =>
      destruct (PrimFloat.leb a b) eqn:Hpositive; [now left|]
  end.
  right. unfold bind, ret.
  destruct (generateId w) as [i w1].
  match goal with
  | |- context [parseDate ?s w1] => destruct (parseDate s w1) as [d w2]
  end.
  eexists. split; [reflexivity|].
  unfold builtFrom. cbn [amount description category city state fileId].
  repeat split; assumption.
Qed.

(** A row whose amount parses to zero or less, or to NaN, adds nothing. *)
Lemma parseRow_drops (file : JSString) (transactions : list Transaction)
    (row : gmap JSString JSString) (w : World) :
  (parseAmount (default [] (row !! js "Amount")) <=? 0)%float = true ->
  parseRow file transactions row w = (transactions, w).
Proof.
  intros Hle. unfold parseRow.
  match goal with
  | |- context [PrimFloat.leb ?a ?b] => replace (PrimFloat.leb a b) with true
  end.
  destruct (falsy (row !! js "Date") || falsy (row !! js "Description")
            || falsy (row !! js "Amount")); reflexivity.
Qed.

Lemma parseCSV_builtFrom (csvContent file : JSString) (w : World)
    (t : Transaction) :
  In t (fst (parseCSV csvContent file w)) ->
  exists row, In row (Papa_parse csvContent) /\ builtFrom file row t.
Proof.
  unfold parseCSV, bind, ret. intros Ht.
  destruct (forEach (parseRow file) (Papa_parse csvContent) [] w)
    as [transactions w'] eqn:Hloop.
  simpl in Ht. apply sort_In in Ht.
  assert (Hin : In t (fst (forEach (parseRow file)
                             (Papa_parse csvContent) [] w)))
    by now rewrite Hloop.
  apply (forEach_appends (builtFrom file)) in Hin.
  - destruct Hin as [[] | Hrow]. exact Hrow.
  - intros s a w0. apply parseRow_cases.
Qed.

(** Unparsable amounts parse to zero and no amount is NaN. *)
Lemma parseAmount_unparsable (amountStr : JSString) :
  is_nan (parseFloat
            (removeAll (fun c => (c =? 36)%N || (c =? 44)%N || isWhiteSpace c)
                       amountStr)) = true ->
  parseAmount amountStr = 0%float.
Proof. unfold parseAmount. now intros ->. Qed.

Lemma parseAmount_not_nan (amountStr : JSString) :
  is_nan (parseAmount amountStr) = false.
Proof.
  unfold parseAmount.
  destruct (is_nan (parseFloat _)) eqn:E; [reflexivity | exact E].
Qed.

(** C9: every record that [parseCSV] returns has a strictly positive
    amount; a row whose amount parses to zero or less (an unparsable amount
    parses to zero) is not among them. *)
Theorem parseCSV_amount_positive (csvContent file : JSString) (w : World) :
  Forall (fun t => (0 <? amount t)%float = true)
         (fst (parseCSV csvContent file w)).
Proof.
  apply List.Forall_forall. intros t Ht.
  apply parseCSV_builtFrom in Ht.
  destruct Ht as (row & _ & _ & _ & _ & Hamount & Hpositive & _).
  apply float_positive; [|exact Hpositive].
  rewrite Hamount. apply parseAmount_not_nan.
Qed.

(** C5, amended: a record comes from a row of the document; without a
    City/State cell (or with an empty one) its city is the empty string and
    its state is absent; a cell without a line break gives the trimmed cell
    as city and no state; a cell with a line break gives the trimmed first
    and second lines as city and state. *)
Theorem parseCSV_city_state (csvContent file : JSString) (w : World)
    (t : Transaction) :
  In t (fst (parseCSV csvContent file w)) ->
  exists row,
    In row (Papa_parse csvContent)
    /\ description t = trim (default [] (row !! js "Description"))
    /\ (row !! js "City/State" = None ->
        city t = Some [] /\ state t = None)
    /\ (forall a, row !! js "City/State" = Some a -> ~ In 10%N a ->
        city t = Some (trim a) /\ state t = None)
    /\ (forall a b rest,
          row !! js "City/State" = Some (a ++ 10%N :: b ++ rest) ->
          ~ In 10%N a -> ~ In 10%N b ->
          rest = [] \/ (exists r, rest = 10%N :: r) ->
          city t = Some (trim a) /\ state t = Some (trim b)).
Proof.
  intros Ht. apply parseCSV_builtFrom in Ht.
  destruct Ht as (row & Hrow & _ & _ & _ & _ & _ & Hdescription & _ & Hcity
                  & Hstate & _).
  exists row. split; [exact Hrow|]. split; [exact Hdescription|].
  split; [|split].
  - intros Hnone. rewrite Hnone in Hcity, Hstate. now split.
  - intros a Ha Hbreak. rewrite Ha in Hcity, Hstate.
    destruct a as [|c a].
    + now split.
    + cbn [orElse] in Hcity, Hstate.
      rewrite (split_no_separator _ _ (no_line_break _ Hbreak))
        in Hcity, Hstate.
      now split.
  - intros a b rest Hcell Ha Hb Hrest. rewrite Hcell in Hcity, Hstate.
    assert (Hsplit : exists more,
               split (N.eqb 10) (a ++ 10%N :: b ++ rest) = a :: b :: more).
    { rewrite (split_at_separator _ a (b ++ rest) 10%N
                 (no_line_break _ Ha) eq_refl).
      destruct Hrest as [-> | (r & ->)].
      - rewrite app_nil_r, (split_no_separator _ _ (no_line_break _ Hb)).
        now exists [].
      - rewrite (split_at_separator _ b r 10%N (no_line_break _ Hb) eq_refl).
        now eexists. }
    destruct Hsplit as [more Hsplit].
    assert (Hor : orElse (Some (a ++ 10%N :: b ++ rest)) []
                  = a ++ 10%N :: b ++ rest)
      by (destruct a; reflexivity).
    rewrite Hor, Hsplit in Hcity, Hstate. now split.
Qed.

End Builder.


Lemma parseCSV_city_state_witness :
  exists t,
    In t (fst (@parseCSV ExampleHost.host Examples.statementWithCity
                 (js "f1") 0%nat))
    /\ description t = js "STARBUCKS #1234"
    /\ city t = Some (js "Seattle") /\ state t = Some (js "WA").
Proof.
  pose proof (@parseCSV_city_state ExampleHost.host
                Examples.statementWithCity (js "f1") 0%nat) as Hspec.
  remember (fst (@parseCSV ExampleHost.host Examples.statementWithCity
                   (js "f1") 0%nat)) as out eqn:Hout.
  vm_compute in Hout. subst out.
  eexists. split; [left; reflexivity|].
  split; [reflexivity|].
  destruct (Hspec _ (or_introl eq_refl))
    as (row & Hrow & Hdescription & _ & _ & Htwo).
  vm_compute in Hrow. destruct Hrow as [<- | [<- | []]].
  - apply (Htwo (js " Seattle") (js "WA ") []).
    + vm_compute. reflexivity.
    + vm_compute. intros H. repeat (destruct H as [H | H]; [discriminate|]).
      exact H.
    + vm_compute. intros H. repeat (destruct H as [H | H]; [discriminate|]).
      exact H.
    + now left.
  - vm_compute in Hdescription. discriminate.
Defined.

(** C5, as stated, fails: the statement has no City/State column and the
    record built from its only valid row has the empty string as city. *)
Lemma parseCSV_city_absent_counterexample :
  List.map (fun row => row !! js "City/State")
           (@Papa_parse ExampleHost.host Examples.statementWithoutCity)
  = [None; None]
  /\ List.map (fun t => (city t, state t))
              (fst (@parseCSV ExampleHost.host Examples.statementWithoutCity
                      (js "f1") 0%nat))
     = [(Some [], None)]
  /\ ~ Forall (fun t => city t = None /\ state t = None)
              (fst (@parseCSV ExampleHost.host Examples.statementWithoutCity
                      (js "f1") 0%nat)).
Proof.
  split; [vm_compute; reflexivity|].
  split; [vm_compute; reflexivity|].
  intros Hall.
  remember (fst (@parseCSV ExampleHost.host Examples.statementWithoutCity
                   (js "f1") 0%nat)) as out eqn:Hout.
  vm_compute in Hout. subst out.
  inversion Hall as [|t l [Hcity _] _]. discriminate.
Qed.

(* ================================================================== *)
(** ** Maps in insertion order *)
(* ================================================================== *)

Lemma Map_get_set {V : Type} (m : JSMap V) (k k' : JSString) (v : V) :
  Map_get (Map_set m k v) k'
  = if decide (k = k') then Some v else Map_get m k'.
Proof.
  induction m as [|[k0 v0] m IH]; simpl.
  - destruct (decide (k = k')); reflexivity.
  - destruct (decide (k0 = k)) as [->|Hne]; simpl.
    + destruct (decide (k = k')); reflexivity.
    + rewrite IH. destruct (decide (k0 = k')) as [->|]; [|reflexivity].
      destruct (decide (k = k')); [congruence | reflexivity].
Qed.

Lemma Map_set_keys {V : Type} (m : JSMap V) (k k' : JSString) (v : V) :
  In k' (List.map fst (Map_set m k v)) <-> k = k' \/ In k' (List.map fst m).
Proof.
  induction m as [|[k0 v0] m IH]; simpl.
  - tauto.
  - destruct (decide (k0 = k)) as [->|Hne]; simpl; [tauto|].
    rewrite IH. tauto.
Qed.

Lemma Map_set_NoDup {V : Type} (m : JSMap V) (k : JSString) (v : V) :
  List.NoDup (List.map fst m) -> List.NoDup (List.map fst (Map_set m k v)).
Proof.
  induction m as [|[k0 v0] m IH]; simpl; intros Hm.
  - constructor; [intros [] | constructor].
  - inversion Hm as [|? ? Hnew Hm']; subst.
    destruct (decide (k0 = k)) as [->|Hne]; simpl.
    + constructor; assumption.
    + constructor; [|apply IH; assumption].
      rewrite Map_set_keys. intros [E | Hin]; [congruence | contradiction].
Qed.

Lemma Map_get_In {V : Type} (m : JSMap V) (k : JSString) (v : V) :
  List.NoDup (List.map fst m) -> In (k, v) m -> Map_get m k = Some v.
Proof.
  induction m as [|[k0 v0] m IH]; simpl; intros Hm Hin; [destruct Hin|].
  inversion Hm as [|? ? Hnew Hm']; subst.
  destruct Hin as [E | Hin].
  - inversion E; subst. destruct (decide (k = k)); [reflexivity | congruence].
  - destruct (decide (k0 = k)) as [->|Hne]; [|now apply IH].
    exfalso. apply Hnew. apply (in_map fst) in Hin. exact Hin.
Qed.

Lemma Map_get_Some {V : Type} (m : JSMap V) (k : JSString) (v : V) :
  Map_get m k = Some v -> In (k, v) m.
Proof.
  induction m as [|[k0 v0] m IH]; simpl; [discriminate|].
  destruct (decide (k0 = k)) as [->|Hne].
  - intros E. inversion E; subst. now left.
  - intros E. right. now apply IH.
Qed.

Lemma Map_set_countSum (m : JSMap Entry.t) (k : JSString) (v : Entry.t) :
  (countSum (Map_set m k v)
   + Entry.count (default {| Entry.total := 0; Entry.count := 0 |}
                          (Map_get m k))
   = countSum m + Entry.count v)%nat.
Proof.
  unfold countSum. induction m as [|[k0 v0] m IH]; simpl.
  - lia.
  - destruct (decide (k0 = k)) as [->|Hne]; simpl; lia.
Qed.

Lemma entries_of_keys {V : Type} (f : JSString -> V) (m : JSMap V) :
  (forall k v, In (k, v) m -> v = f k) ->
  m = List.map (fun k => (k, f k)) (List.map fst m).
Proof.
  induction m as [|[k0 v0] m IH]; simpl; intros Hm; [reflexivity|].
  rewrite (Hm k0 v0) by now left. f_equal. apply IH.
  intros k v Hin. apply Hm. now right.
Qed.

(* ================================================================== *)
(** ** The aggregation loop *)
(* ================================================================== *)

Section Aggregation.
Variable key : Transaction -> JSString.

Lemma withKey_snoc_same (l : list Transaction) (t : Transaction) :
  withKey key (key t) (l ++ [t]) = withKey key (key t) l ++ [t].
Proof.
  unfold withKey. rewrite List.filter_app. simpl.
  now rewrite bool_decide_eq_true_2.
Qed.

Lemma withKey_snoc_other (l : list Transaction) (t : Transaction)
    (k : JSString) :
  key t <> k -> withKey key k (l ++ [t]) = withKey key k l.
Proof.
  intros Hne. unfold withKey. rewrite List.filter_app. simpl.
  rewrite bool_decide_eq_false_2 by assumption. apply app_nil_r.
Qed.

Lemma withKey_nonempty (l : list Transaction) (k : JSString) :
  withKey key k l <> [] <-> In k (List.map key l).
Proof.
  unfold withKey. induction l as [|t l IH]; simpl; [tauto|].
  destruct (bool_decide_reflect (key t = k)) as [E|Hne].
  - split; [now left | discriminate].
  - rewrite IH. tauto.
Qed.

Lemma entryFor_snoc (l : list Transaction) (t : Transaction) :
  entryFor key (l ++ [t]) (key t)
  = {| Entry.total := (Entry.total (entryFor key l (key t)) + amount t)%float;
       Entry.count := Entry.count (entryFor key l (key t)) + 1 |}.
Proof.
  unfold entryFor. rewrite withKey_snoc_same. cbn [Entry.total Entry.count].
  unfold sumOfAmounts. rewrite fold_left_app, length_app. reflexivity.
Qed.

Lemma addedUp_nil : addedUp key [] [].
Proof. repeat split. constructor. Qed.

Lemma addToMap_addedUp (l : list Transaction) (m : JSMap Entry.t)
    (t : Transaction) :
  addedUp key l m -> addedUp key (l ++ [t]) (addToMap key m t).
Proof.
  intros (Hkeys & Hget & Hcount).
  assert (Hexisting :
            default {| Entry.total := 0; Entry.count := 0 |}
                    (Map_get m (key t))
            = entryFor key l (key t)).
  { rewrite Hget. unfold entryFor.
    destruct (withKey key (key t) l); reflexivity. }
  unfold addToMap. split; [|split].
  - now apply Map_set_NoDup.
  - intros k. rewrite Map_get_set.
    destruct (decide (key t = k)) as [<-|Hne].
    + rewrite Hexisting, <- entryFor_snoc, withKey_snoc_same.
      destruct (withKey key (key t) l); reflexivity.
    + unfold entryFor. rewrite (withKey_snoc_other l t k Hne). apply Hget.
  - pose proof (Map_set_countSum m (key t)
                  {| Entry.total :=
                       (Entry.total
                          (default {| Entry.total := 0; Entry.count := 0 |}
                                   (Map_get m (key t)))
                        + amount t)%float;
                     Entry.count :=
                       Entry.count
                         (default {| Entry.total := 0; Entry.count := 0 |}
                                  (Map_get m (key t))) + 1 |}) as Hsum.
    cbn [Entry.count] in Hsum. rewrite length_app. simpl. lia.
Qed.

Lemma fold_addToMap_addedUp (rest l : list Transaction) (m : JSMap Entry.t) :
  addedUp key l m ->
  addedUp key (l ++ rest) (fold_left (addToMap key) rest m).
Proof.
  revert l m. induction rest as [|t rest IH]; intros l m Hm; simpl.
  - now rewrite app_nil_r.
  - replace (l ++ t :: rest) with ((l ++ [t]) ++ rest)
      by now rewrite <- app_assoc.
    apply IH, addToMap_addedUp, Hm.
Qed.

Lemma aggregate_addedUp (l : list Transaction) :
  addedUp key l (fold_left (addToMap key) l []).
Proof. apply (fold_addToMap_addedUp l [] []), addedUp_nil. Qed.

Lemma addedUp_keys (l : list Transaction) (m : JSMap Entry.t) (k : JSString) :
  addedUp key l m -> In k (List.map fst m) <-> In k (List.map key l).
Proof.
  intros (Hkeys & Hget & _). rewrite <- withKey_nonempty. split.
  - intros Hin. apply in_map_iff in Hin. destruct Hin as ([k' v] & <- & Hin).
    apply (Map_get_In m k' v Hkeys) in Hin. rewrite Hget in Hin.
    simpl. destruct (withKey key k' l); [discriminate | discriminate].
  - intros Hne. specialize (Hget k).
    destruct (withKey key k l) eqn:E; [contradiction|].
    apply Map_get_Some in Hget. apply (in_map fst) in Hget. exact Hget.
Qed.

(** The map holds one entry per distinct key, with the sum and the number
    of the transactions of that key. *)
Lemma aggregate_entries (l : list Transaction) :
  Permutation (fold_left (addToMap key) l [])
              (List.map (fun k => (k, entryFor key l k))
                        (distinct (List.map key l))).
Proof.
  pose proof (aggregate_addedUp l) as Hm.
  set (m := fold_left (addToMap key) l []) in *.
  rewrite (entries_of_keys (entryFor key l) m).
  - apply Permutation_map. apply Permutation.NoDup_Permutation.
    + apply Hm.
    + apply NoDup_nodup.
    + intros k. unfold distinct. rewrite nodup_In.
      apply addedUp_keys, Hm.
  - intros k v Hin. destruct Hm as (Hkeys & Hget & _).
    apply (Map_get_In m k v Hkeys) in Hin. rewrite Hget in Hin.
    destruct (withKey key k l); [discriminate | now inversion Hin].
Qed.

Lemma aggregate_countSum (l : list Transaction) :
  countSum (fold_left (addToMap key) l []) = length l.
Proof. apply (aggregate_addedUp l). Qed.

End Aggregation.

(* ================================================================== *)
(** ** Sorting by a difference of totals *)
(* ================================================================== *)

Lemma insertSorted_Sorted {A : Type} (cmp : A -> A -> Sign) (x : A)
    (l : list A) :
  (forall a b, cmp a b = Positive -> cmp b a <> Positive) ->
  Sorted (fun a b => cmp a b <> Positive) l ->
  Sorted (fun a b => cmp a b <> Positive) (insertSorted cmp x l).
Proof.
  intros Hasym. induction l as [|y l IH]; intros Hl; simpl.
  - repeat constructor.
  - destruct (cmp x y) eqn:E.
    + constructor; [exact Hl | constructor; rewrite E; discriminate].
    + constructor; [exact Hl | constructor; rewrite E; discriminate].
    + apply Sorted_inv in Hl. destruct Hl as [Hl Hy].
      constructor; [apply IH, Hl|].
      destruct l as [|z l]; simpl.
      * constructor. apply Hasym, E.
      * destruct (cmp x z); constructor;
          solve [apply Hasym, E | now inversion Hy].
Qed.

Lemma sort_Sorted {A : Type} (cmp : A -> A -> Sign) (l : list A) :
  (forall a b, cmp a b = Positive -> cmp b a <> Positive) ->
  Sorted (fun a b => cmp a b <> Positive) (sort cmp l).
Proof.
  intros Hasym. induction l as [|x l IH]; simpl; [constructor|].
  apply insertSorted_Sorted; assumption.
Qed.

Lemma Sorted_weaken {A : Type} (R S : A -> A -> Prop) (l : list A) :
  (forall a b, R a b -> S a b) -> Sorted R l -> Sorted S l.
Proof.
  intros HRS. induction 1 as [|x l _ IH Hx]; constructor; [exact IH|].
  destruct Hx; constructor. now apply HRS.
Qed.

Lemma signOfNumber_Positive (v : float) :
  signOfNumber v = Positive <-> (0 <? v)%float = true.
Proof.
  unfold signOfNumber. split.
  - destruct (v <? 0)%float; [discriminate|].
    destruct (0 <? v)%float; [reflexivity | discriminate].
  - intros H. rewrite (float_lt_asymmetric _ _ H), H. reflexivity.
Qed.

(** The comparator [(a, b) => total b - total a] never orders a pair both
    ways, and it leaves no entry before one with a larger total. *)
Lemma sort_descending {A : Type} (total : A -> float) (l : list A) :
  Sorted (fun a b => (total a <? total b)%float = false)
         (sort (fun a b => signOfNumber (total b - total a)) l).
Proof.
  apply Sorted_weaken
    with (R := fun a b => signOfNumber (total b - total a) <> Positive).
  - intros a b Hab. rewrite signOfNumber_Positive, float_sub_positive in Hab.
    now destruct (total a <? total b)%float.
  - apply sort_Sorted. intros a b.
    rewrite !signOfNumber_Positive, !float_sub_positive.
    intros Hab. rewrite (float_lt_asymmetric _ _ Hab). discriminate.
Qed.

Lemma list_sum_Permutation (l l' : list nat) :
  Permutation l l' -> list_sum l = list_sum l'.
Proof. induction 1; simpl; lia. Qed.

(* ================================================================== *)
(** ** Category totals *)
(* ================================================================== *)

(** C8, as stated, fails: binary64 addition rounds, and adding the three
    amounts in statement order gives another number than adding the two
    category totals. *)
Lemma getCategoryTotals_sum_counterexample :
  sumOfAmounts Examples.purchases = 1.0999999999999999%float
  /\ sumOfTotals (@getCategoryTotals ExampleHost.host Examples.purchases)
     = 1.1%float
  /\ (sumOfTotals (@getCategoryTotals ExampleHost.host Examples.purchases)
      =? sumOfAmounts Examples.purchases)%float = false.
Proof. repeat split; vm_compute; reflexivity. Qed.

Section CategoryTotals.
Context `{host : Host}.

Lemma getCategoryTotals_Permutation (transactions : list Transaction) :
  Permutation
    (List.map (fun e => (CategoryTotal.category e, CategoryTotal.total e,
                         CategoryTotal.count e))
              (getCategoryTotals transactions))
    (List.map (fun c => (c, sumOfAmounts (withKey category c transactions),
                         length (withKey category c transactions)))
              (distinct (List.map category transactions))).
Proof.
  unfold getCategoryTotals.
  eapply perm_trans;
    [apply Permutation_map, sort_Permutation|].
  rewrite List.map_map.
  eapply perm_trans;
    [apply Permutation_map, (aggregate_entries category)|].
  rewrite List.map_map. apply Permutation_refl.
Qed.

End CategoryTotals.

(* ================================================================== *)
(** ** Top merchants *)
(* ================================================================== *)

Lemma slice0_zero {A : Type} (l : list A) : slice0 0 l = [].
Proof. unfold slice0. simpl. now rewrite Z.min_l by lia. Qed.

Lemma slice0_all {A : Type} (l : list A) (limit : Z) :
  Z.of_nat (length l) <= limit -> slice0 limit l = l.
Proof.
  intros Hlimit. unfold slice0.
  destruct (Z.ltb_spec limit 0) as [Hneg|_]; [lia|].
  rewrite Z.min_r, Nat2Z.id by lia. apply firstn_all.
Qed.

Lemma slice0_negative {A : Type} (l : list A) (limit : Z) :
  limit < 0 ->
  slice0 limit l = firstn (Z.to_nat (Z.of_nat (length l) + limit)) l.
Proof.
  intros Hneg. unfold slice0.
  destruct (Z.ltb_spec limit 0) as [_|Hpos]; [|lia].
  f_equal. lia.
Qed.

Lemma NoDup_firstn {A : Type} (n : nat) (l : list A) :
  List.NoDup l -> List.NoDup (firstn n l).
Proof.
  intros Hl. rewrite <- (firstn_skipn n l) in Hl.
  exact (List.NoDup_app_remove_r _ _ Hl).
Qed.

Lemma merchantName_leadingDigit (t : Transaction) :
  leadingDigit t = true -> merchantName t = [].
Proof.
  unfold leadingDigit, merchantName, split.
  destruct (description t) as [|c rest]; [discriminate|].
  intros Hc. simpl. destruct (splitAt isDigit rest) as [piece pieces].
  rewrite Hc. reflexivity.
Qed.

(** The ranking before it is cut: one entry per distinct merchant name. *)
Lemma ranking_Permutation (transactions : list Transaction) :
  Permutation
    (sort (fun a b =>
             signOfNumber (MerchantTotal.total b - MerchantTotal.total a))
          (List.map (fun '(name, data) =>
                       {| MerchantTotal.name := name;
                          MerchantTotal.total := Entry.total data;
                          MerchantTotal.count := Entry.count data |})
                    (fold_left (addToMap merchantName) transactions [])))
    (List.map (fun k =>
                 {| MerchantTotal.name := k;
                    MerchantTotal.total :=
                      sumOfAmounts (withKey merchantName k transactions);
                    MerchantTotal.count :=
                      length (withKey merchantName k transactions) |})
              (distinct (List.map merchantName transactions))).
Proof.
  eapply perm_trans; [apply sort_Permutation|].
  eapply perm_trans;
    [apply Permutation_map, (aggregate_entries merchantName)|].
  rewrite List.map_map. apply Permutation_refl.
Qed.

Lemma ranking_names (transactions : list Transaction) (limit : Z) :
  Z.of_nat (length (distinct (List.map merchantName transactions))) <= limit ->
  Permutation (getTopMerchants transactions limit)
    (List.map (fun k =>
                 {| MerchantTotal.name := k;
                    MerchantTotal.total :=
                      sumOfAmounts (withKey merchantName k transactions);
                    MerchantTotal.count :=
                      length (withKey merchantName k transactions) |})
              (distinct (List.map merchantName transactions))).
Proof.
  intros Hlimit. unfold getTopMerchants.
  pose proof (ranking_Permutation transactions) as Hranking.
  rewrite slice0_all; [exact Hranking|].
  rewrite (Permutation_length Hranking), length_map. exact Hlimit.
Qed.

(** C1, as stated, fails: with the limit -1 the slice drops the last entry
    of the ranking and keeps the other two. *)
Lemma getTopMerchants_negative_limit_counterexample :
  -1 <= 0
  /\ List.map MerchantTotal.name (getTopMerchants Examples.purchases (-1))
     = [js "WHOLE FOODS"; []]
  /\ getTopMerchants Examples.purchases (-1) <> [].
Proof.
  split; [lia|]. split; [vm_compute; reflexivity|].
  vm_compute. discriminate.
Qed.

(** C1, amended: the limit 0 yields an empty result; a negative limit [-k]
    yields the ranking without its last [k] entries; a limit of at least the
    number of distinct merchant names yields an entry for each of them. *)
Theorem getTopMerchants_limit (transactions : list Transaction) (limit : Z) :
  let n := Z.of_nat (length (distinct (List.map merchantName transactions))) in
  (limit = 0 -> getTopMerchants transactions limit = [])
  /\ (limit < 0 ->
      getTopMerchants transactions limit
      = firstn (Z.to_nat (n + limit)) (getTopMerchants transactions n))
  /\ (n <= limit ->
      Permutation (List.map MerchantTotal.name
                            (getTopMerchants transactions limit))
                  (distinct (List.map merchantName transactions))).
Proof.
  intros n. split; [|split].
  - intros ->. apply slice0_zero.
  - intros Hneg. unfold getTopMerchants.
    pose proof (ranking_Permutation transactions) as Hranking.
    apply Permutation_length in Hranking. rewrite length_map in Hranking.
    rewrite slice0_negative by exact Hneg.
    rewrite (slice0_all _ n) by (unfold n; lia).
    rewrite Hranking. reflexivity.
  - intros Hlimit.
    eapply perm_trans;
      [apply Permutation_map, (ranking_names transactions limit Hlimit)|].
    rewrite List.map_map. simpl. rewrite List.map_id. apply Permutation_refl.
Qed.

Lemma getTopMerchants_limit_witness :
  getTopMerchants Examples.purchases 0 = []
  /\ List.map MerchantTotal.name (getTopMerchants Examples.purchases (-2))
     = [js "WHOLE FOODS"]
  /\ Permutation
       (List.map MerchantTotal.name (getTopMerchants Examples.purchases 5))
       [js "CORNER BISTRO"; js "WHOLE FOODS"; []].
Proof.
  destruct (getTopMerchants_limit Examples.purchases 0) as (Hzero & _ & _).
  destruct (getTopMerchants_limit Examples.purchases (-2)) as (_ & Hneg & _).
  destruct (getTopMerchants_limit Examples.purchases 5) as (_ & _ & Hall).
  split; [apply Hzero; reflexivity|]. split.
  - rewrite Hneg by lia. vm_compute. reflexivity.
  - apply Hall. vm_compute. discriminate.
Defined.

Lemma getTopMerchants_NoDup (transactions : list Transaction) (limit : Z) :
  List.NoDup (List.map MerchantTotal.name (getTopMerchants transactions limit)).
Proof.
  unfold getTopMerchants, slice0. rewrite <- firstn_map. apply NoDup_firstn.
  apply (Permutation_NoDup
           (l := distinct (List.map merchantName transactions)));
    [|apply NoDup_nodup].
  symmetry.
  eapply perm_trans;
    [apply Permutation_map, (ranking_Permutation transactions)|].
  rewrite List.map_map. simpl. rewrite List.map_id. apply Permutation_refl.
Qed.

(** C10: a record whose description begins with a digit has the empty
    string as merchant name, whatever the rest of the description; no two
    entries of the result have the same name; and the one entry named by the
    empty string, present unless the limit cuts it off, counts and adds up
    every record with that name, this record among them. *)
Theorem leadingDigit_bucket (transactions : list Transaction) (limit : Z)
    (t : Transaction) :
  In t transactions -> leadingDigit t = true ->
  merchantName t = []
  /\ In t (withKey merchantName [] transactions)
  /\ List.NoDup (List.map MerchantTotal.name
                          (getTopMerchants transactions limit))
  /\ (Z.of_nat (length (distinct (List.map merchantName transactions)))
      <= limit ->
      exists e,
        In e (getTopMerchants transactions limit)
        /\ MerchantTotal.name e = []
        /\ MerchantTotal.count e
           = length (withKey merchantName [] transactions)
        /\ MerchantTotal.total e
           = sumOfAmounts (withKey merchantName [] transactions)).
Proof.
  intros Hin Hdigit.
  pose proof (merchantName_leadingDigit t Hdigit) as Hname.
  split; [exact Hname|]. split; [|split].
  - unfold withKey. apply List.filter_In. split; [exact Hin|].
    now apply bool_decide_eq_true_2.
  - apply getTopMerchants_NoDup.
  - intros Hlimit.
    pose proof (ranking_names transactions limit Hlimit) as Hranking.
    exists {| MerchantTotal.name := [];
              MerchantTotal.total :=
                sumOfAmounts (withKey merchantName [] transactions);
              MerchantTotal.count :=
                length (withKey merchantName [] transactions) |}.
    split; [|repeat split].
    apply (Permutation_in _ (Permutation_sym Hranking)).
    apply (in_map (fun k =>
                     {| MerchantTotal.name := k;
                        MerchantTotal.total :=
                          sumOfAmounts (withKey merchantName k transactions);
                        MerchantTotal.count :=
                          length (withKey merchantName k transactions) |})
                  _ []).
    unfold distinct. rewrite nodup_In, <- Hname. now apply in_map.
Qed.

Lemma leadingDigit_bucket_witness :
  merchantName (Examples.purchase "7-ELEVEN 3321" "Restaurant" 0.3) = []
  /\ exists e,
       In e (getTopMerchants Examples.purchases 10)
       /\ MerchantTotal.name e = []
       /\ MerchantTotal.count e = 1%nat
       /\ MerchantTotal.total e = 0.3%float.
Proof.
  destruct (leadingDigit_bucket Examples.purchases 10
              (Examples.purchase "7-ELEVEN 3321" "Restaurant" 0.3))
    as (Hname & _ & _ & Hbucket).
  - right; right; left; reflexivity.
  - reflexivity.
  - split; [exact Hname|].
    destruct Hbucket as (e & He & Hempty & Hcount & Htotal).
    + vm_compute. discriminate.
    + exists e. repeat split; assumption.
Defined.

(* ================================================================== *)
(** ** The export *)
(* ================================================================== *)

Lemma scanCsv_plain (s rest cell : JSString) (cells : list JSString)
    (rows : list (list JSString)) :
  plain s = true ->
  ExampleHost.scanCsv (s ++ rest) false cell cells rows
  = ExampleHost.scanCsv rest false (rev s ++ cell) cells rows.
Proof.
  revert cell. induction s as [|c s IH]; intros cell Hs; [reflexivity|].
  simpl in Hs. apply andb_prop in Hs. destruct Hs as [Hc Hs].
  apply negb_true_iff in Hc. apply orb_false_elim in Hc.
  destruct Hc as [Hc Hfeed]. apply orb_false_elim in Hc.
  destruct Hc as [Hquote Hcomma].
  simpl. rewrite Hquote, Hcomma, Hfeed, (IH _ Hs), <- app_assoc.
  reflexivity.
Qed.

Lemma scanCsv_quoted (d rest cell : JSString) (cells : list JSString)
    (rows : list (list JSString)) :
  ExampleHost.scanCsv (doubleQuotes d ++ 34%N :: 44%N :: rest) true cell
                      cells rows
  = ExampleHost.scanCsv (44%N :: rest) false (rev d ++ cell) cells rows.
Proof.
  revert cell. induction d as [|c d IH]; intros cell; [reflexivity|].
  simpl. destruct (N.eqb_spec c 34) as [->|Hc]; simpl.
  - rewrite IH, <- app_assoc. reflexivity.
  - apply N.eqb_neq in Hc. rewrite Hc, IH, <- app_assoc. reflexivity.
Qed.

Lemma scanCsv_comma (rest cell : JSString) (cells : list JSString)
    (rows : list (list JSString)) :
  ExampleHost.scanCsv (44%N :: rest) false cell cells rows
  = ExampleHost.scanCsv rest false [] (rev cell :: cells) rows.
Proof. reflexivity. Qed.

Lemma scanCsv_open (rest cell : JSString) (cells : list JSString)
    (rows : list (list JSString)) :
  ExampleHost.scanCsv (34%N :: rest) false cell cells rows
  = ExampleHost.scanCsv rest true cell cells rows.
Proof. reflexivity. Qed.

Lemma scanCsv_feed (rest cell : JSString) (cells : list JSString)
    (rows : list (list JSString)) :
  ExampleHost.scanCsv (10%N :: rest) false cell cells rows
  = ExampleHost.scanCsv rest false [] []
      (ExampleHost.endRow cell cells rows).
Proof. reflexivity. Qed.

Lemma endRow_cells (cell c : JSString) (cells : list JSString)
    (rows : list (list JSString)) :
  ExampleHost.endRow cell (c :: cells) rows
  = rev (rev cell :: c :: cells) :: rows.
Proof. now destruct cell. Qed.

Lemma header_lineReads : lineReads (join (js ",") exportHeaders) exportHeaders.
Proof. intros rows. split; [intros rest|]; reflexivity. Qed.

Section CsvExport.
Context `{host : Host}.

Lemma exportRow_scan (t : Transaction) (rest : JSString)
    (rows : list (list JSString)) :
  plainCells t = true ->
  ExampleHost.scanCsv (join (js ",") (exportRow t) ++ rest) false [] [] rows
  = ExampleHost.scanCsv rest false (rev (orElse (state t) []))
      [orElse (city t) []; category t; toFixed2 (amount t); description t;
       toLocaleDateString (date t)]
      rows.
Proof.
  unfold plainCells. intros Hplain.
  apply andb_prop in Hplain. destruct Hplain as [Hplain Hstate].
  apply andb_prop in Hplain. destruct Hplain as [Hplain Hcity].
  apply andb_prop in Hplain. destruct Hplain as [Hplain Hcategory].
  apply andb_prop in Hplain. destruct Hplain as [Hdate Hamount].
  unfold exportRow. cbn [join]. change (js ",") with [44%N].
  repeat rewrite <- app_assoc. cbn [app].
  rewrite (scanCsv_plain _ _ _ _ _ Hdate), scanCsv_comma, scanCsv_open.
  rewrite scanCsv_quoted, scanCsv_comma.
  rewrite (scanCsv_plain _ _ _ _ _ Hamount), scanCsv_comma.
  rewrite (scanCsv_plain _ _ _ _ _ Hcategory), scanCsv_comma.
  rewrite (scanCsv_plain _ _ _ _ _ Hcity), scanCsv_comma.
  rewrite (scanCsv_plain _ _ _ _ _ Hstate).
  rewrite !app_nil_r, !rev_involutive. reflexivity.
Qed.

Lemma exportRow_lineReads (t : Transaction) :
  plainCells t = true ->
  lineReads (join (js ",") (exportRow t))
            [toLocaleDateString (date t); description t;
             toFixed2 (amount t); category t; orElse (city t) [];
             orElse (state t) []].
Proof.
  intros Hplain rows. split.
  - intros rest. rewrite (exportRow_scan t _ rows Hplain).
    rewrite scanCsv_feed, endRow_cells, rev_involutive. reflexivity.
  - rewrite <- (app_nil_r (join (js ",") (exportRow t))).
    rewrite (exportRow_scan t _ rows Hplain).
    cbn [ExampleHost.scanCsv]. rewrite endRow_cells, rev_involutive.
    reflexivity.
Qed.

End CsvExport.

Lemma scanCsv_lines (lines : list JSString) (cellss : list (list JSString)) :
  Forall2 lineReads lines cellss -> lines <> [] ->
  forall rows,
    ExampleHost.scanCsv (join [10%N] lines) false [] [] rows
    = rev rows ++ cellss.
Proof.
  induction 1 as [|line cells lines cellss Hline Hlines IH];
    intros Hne rows; [congruence|].
  destruct (Hline rows) as [Hmore Hlast].
  destruct Hlines as [|line' cells' lines' cellss' Hline' Hlines'].
  - simpl join. rewrite Hlast. reflexivity.
  - change (join [10%N] (line :: line' :: lines'))
      with (line ++ 10%N :: join [10%N] (line' :: lines')).
    rewrite Hmore, IH by discriminate. simpl. now rewrite <- app_assoc.
Qed.

(** C4, as stated, fails: the export has six columns, the amount appears
    once, and no row has seven cells. *)
Lemma exportToCSV_columns_counterexample :
  readRows (@exportToCSV ExampleHost.host Examples.purchases)
  = [ [js "Date"; js "Description"; js "Amount"; js "Category"; js "City";
       js "State"];
      [js "3/15/2024"; js "CORNER BISTRO 12"; js "0.10"; js "Restaurant";
       []; []];
      [js "3/15/2024"; js "WHOLE FOODS 1055"; js "0.70"; js "Groceries";
       []; []];
      [js "3/15/2024"; js "7-ELEVEN 3321"; js "0.30"; js "Restaurant";
       []; []] ]
  /\ ~ Exists (fun row => length row = 7%nat)
              (readRows (@exportToCSV ExampleHost.host Examples.purchases)).
Proof.
  split; [vm_compute; reflexivity|].
  intros Hseven. apply List.Exists_exists in Hseven.
  destruct Hseven as (row & Hrow & Hlength).
  vm_compute in Hrow.
  repeat (destruct Hrow as [<- | Hrow]; [discriminate Hlength|]).
  destruct Hrow.
Qed.

(** Only the description is written in quotation marks: a comma in the city
    splits the cell in two, and the row reads as seven cells. *)
Lemma exportToCSV_comma_in_city :
  readRows (@exportToCSV ExampleHost.host [Examples.purchaseInPortland])
  = [ [js "Date"; js "Description"; js "Amount"; js "Category"; js "City";
       js "State"];
      [js "3/15/2024"; js "POWELLS BOOKS"; js "18.50"; js "Shopping";
       js "Portland"; js " OR"; []] ]
  /\ @plainCells ExampleHost.host Examples.purchaseInPortland = false.
Proof. split; vm_compute; reflexivity. Qed.

Section CsvExport2.
Context `{host : Host}.

(** C4, amended: when the cells that are written as they are (the date, the
    amount, the category, the city and the state) hold no comma, quotation
    mark or line feed, the export reads back as the header row Date,
    Description, Amount, Category, City, State and one row of six cells per
    record, in the order of the records: the amount is written once, with
    two decimals, and the description, written between quotation marks with
    its own quotation marks doubled, reads back as it was, whatever it
    holds. *)
Theorem exportToCSV_columns (transactions : list Transaction) :
  Forall (fun t => plainCells t = true) transactions ->
  readRows (exportToCSV transactions)
  = [js "Date"; js "Description"; js "Amount"; js "Category"; js "City";
     js "State"]
    :: List.map
         (fun t =>
            [toLocaleDateString (date t); description t;
             toFixed2 (amount t); category t; orElse (city t) [];
             orElse (state t) []])
         transactions.
Proof.
  intros Hplain. unfold readRows, exportToCSV.
  rewrite scanCsv_lines
    with (cellss :=
            exportHeaders
            :: List.map
                 (fun t =>
                    [toLocaleDateString (date t); description t;
                     toFixed2 (amount t); category t; orElse (city t) [];
                     orElse (state t) []])
                 transactions);
    [reflexivity | | discriminate].
  constructor; [apply header_lineReads|].
  induction Hplain as [|t l Ht _ IH]; simpl; constructor;
    [now apply exportRow_lineReads | exact IH].
Qed.

End CsvExport2.

Lemma exportToCSV_columns_witness :
  readRows (@exportToCSV ExampleHost.host [Examples.purchaseQuoted])
  = [ [js "Date"; js "Description"; js "Amount"; js "Category"; js "City";
       js "State"];
      [js "3/15/2024";
       js "THE " ++ [34%N] ++ js "BISTRO" ++ [34%N] ++ js ", INC"
       ++ [10%N] ++ js "12";
       js "12.50"; js "Restaurant"; []; []] ].
Proof.
  rewrite (@exportToCSV_columns ExampleHost.host [Examples.purchaseQuoted]).
  - vm_compute. reflexivity.
  - repeat constructor.
Defined.


(* ================================================================== *)
(** ** More on binary64 order and addition *)
(* ================================================================== *)

(** Of three numbers, the middle one not NaN: if the first is not below the
    second and the second not below the third, the first is not below the
    third. *)
Lemma SFltb_false_trans (x y z : spec_float) :
  y <> S754_nan ->
  SFltb x y = false -> SFltb y z = false -> SFltb x z = false.
Proof.
  intros Hy. unfold SFltb.
  destruct x as [sx|sx| |sx mx ex], y as [sy|sy| |sy my ey],
           z as [sz|sz| |sz mz ez];
    try congruence;
    try (destruct sx; try destruct sy; try destruct sz; cbn; congruence);
    try (destruct sy; try destruct sz; cbn; congruence);
    try (destruct sx; try destruct sz; cbn; congruence).
  cbn [SFcompare].
  change (Pos.compare_cont Eq mx my) with (Pos.compare mx my).
  change (Pos.compare_cont Eq my mz) with (Pos.compare my mz).
  change (Pos.compare_cont Eq mx mz) with (Pos.compare mx mz).
  destruct sx, sy, sz; try congruence;
    destruct (Z.compare_spec ex ey), (Z.compare_spec ey ez),
             (Z.compare_spec ex ez); try lia; try congruence;
    destruct (Pos.compare_spec mx my), (Pos.compare_spec my mz),
             (Pos.compare_spec mx mz); cbn; try lia; try congruence.
Qed.

Lemma float_not_less_trans (a b c : float) :
  is_nan b = false ->
  (a <? b)%float = false -> (b <? c)%float = false -> (a <? c)%float = false.
Proof.
  unfold is_nan. rewrite FloatAxioms.eqb_spec, !FloatAxioms.ltb_spec.
  intros Hb. apply SFltb_false_trans.
  intros E. rewrite E in Hb. discriminate.
Qed.

Lemma float_positive_not_nan (a : float) :
  (0 <? a)%float = true -> is_nan a = false.
Proof.
  unfold is_nan. rewrite FloatAxioms.eqb_spec, FloatAxioms.ltb_spec, Prim2SF_zero.
  destruct (Prim2SF a) as [[]|[]| |[] m e]; cbn; try congruence.
  - intros _. unfold SFeqb. cbn.
    rewrite Z.compare_refl, Pos.compare_cont_refl. reflexivity.
Qed.

Lemma float_positive_bounds (a : float) :
  (0 <? a)%float = true ->
  (0 <=? a)%float = true /\ (a <=? infinity)%float = true.
Proof.
  rewrite FloatAxioms.ltb_spec, !FloatAxioms.leb_spec, Prim2SF_zero.
  change (Prim2SF infinity) with (S754_infinity false).
  destruct (Prim2SF a) as [[]|[]| |[] m e]; cbn; try congruence; now split.
Qed.

Lemma SFadd_positive (x y : spec_float) :
  valid_binary x = true -> valid_binary y = true ->
  SFltb (S754_zero false) x = true -> SFltb (S754_zero false) y = true ->
  SFltb (S754_zero false) (SFadd prec emax x y) = true.
Proof.
  intros Hx Hy.
  destruct x as [sx|sx| |sx mx ex], y as [sy|sy| |sy my ey];
    try (destruct sx; cbn; congruence);
    try (destruct sy; cbn; congruence);
    try (destruct sx, sy; cbn; congruence); try (cbn; congruence).
  destruct sx, sy; cbn [SFltb SFcompare]; try congruence. intros _ _.
  destruct (valid_finite _ _ _ Hx) as (Hex & _ & _).
  destruct (valid_finite _ _ _ Hy) as (Hey & _ & _).
  cbn [SFadd]. rewrite binary_normalize_positive by lia.
  cbn [cond_Zopp]. apply Z.ltb_lt. lia.
Qed.

(** The sum of two positive numbers is positive (it may be infinite, it is
    never NaN). *)
Lemma float_add_positive (a b : float) :
  (0 <? a)%float = true -> (0 <? b)%float = true ->
  (0 <? a + b)%float = true.
Proof.
  rewrite !FloatAxioms.ltb_spec, FloatAxioms.add_spec, Prim2SF_zero.
  apply SFadd_positive; apply Prim2SF_valid.
Qed.

Lemma float_zero_add_positive (a : float) :
  (0 <? a)%float = true -> (0 <? 0 + a)%float = true.
Proof.
  rewrite !FloatAxioms.ltb_spec, FloatAxioms.add_spec, Prim2SF_zero.
  destruct (Prim2SF a) as [[]|[]| |[] m e]; cbn; congruence.
Qed.

(** A positive number is truthy. *)
Lemma float_positive_truthy (a : float) :
  (0 <? a)%float = true -> truthyNumber a = true.
Proof.
  intros Ha. unfold truthyNumber.
  rewrite (float_positive_not_nan a Ha), orb_false_r.
  revert Ha. rewrite FloatAxioms.eqb_spec, FloatAxioms.ltb_spec, Prim2SF_zero.
  destruct (Prim2SF a) as [[]|[]| |[] m e]; cbn; congruence.
Qed.


(* ================================================================== *)
(** ** The record builder, continued *)
(* ================================================================== *)

Lemma dropWhile_dropWhile (p : N -> bool) (s : JSString) :
  dropWhile p (dropWhile p s) = dropWhile p s.
Proof.
  induction s as [|c s IH]; simpl; [reflexivity|].
  destruct (p c) eqn:E; [exact IH|]. simpl. now rewrite E.
Qed.

Lemma dropWhile_snoc (p : N -> bool) (s : JSString) (c : N) :
  p c = false -> dropWhile p (s ++ [c]) = dropWhile p s ++ [c].
Proof.
  intros Hc. induction s as [|d s IH]; simpl.
  - now rewrite Hc.
  - destruct (p d); [exact IH | reflexivity].
Qed.

Lemma dropWhile_Forall (P : N -> Prop) (p : N -> bool) (s : JSString) :
  Forall P s -> Forall P (dropWhile p s).
Proof.
  induction 1 as [|c s Hc Hs IH]; simpl; [constructor|].
  destruct (p c); [exact IH | now constructor].
Qed.

Lemma trim_Forall (P : N -> Prop) (s : JSString) :
  Forall P s -> Forall P (trim s).
Proof.
  intros Hs. unfold trim, trimEnd, trimStart.
  apply Forall_rev, dropWhile_Forall, Forall_rev, dropWhile_Forall, Hs.
Qed.

(** A trimmed string has no white space left to trim. *)
Lemma trim_trim (s : JSString) : trim (trim s) = trim s.
Proof.
  unfold trim, trimEnd, trimStart.
  set (s' := dropWhile isWhiteSpace s).
  assert (Hstart : dropWhile isWhiteSpace
                     (rev (dropWhile isWhiteSpace (rev s')))
                   = rev (dropWhile isWhiteSpace (rev s'))).
  { assert (Hs' : dropWhile isWhiteSpace s' = s')
      by apply dropWhile_dropWhile.
    destruct s' as [|c r]; [reflexivity|].
    simpl in Hs'. destruct (isWhiteSpace c) eqn:Hc.
    - exfalso. assert (Hlen : length (dropWhile isWhiteSpace r) = S (length r))
        by now rewrite Hs'.
      clear -Hlen. revert Hlen.
      assert (Hle : forall l, (length (dropWhile isWhiteSpace l) <= length l)%nat).
      { induction l as [|d l IH]; simpl; [lia|].
        destruct (isWhiteSpace d); simpl; lia. }
      specialize (Hle r). lia.
    - simpl. rewrite (dropWhile_snoc _ _ _ Hc), rev_app_distr. simpl.
      now rewrite Hc. }
  rewrite Hstart, rev_involutive, dropWhile_dropWhile. reflexivity.
Qed.

Lemma simplifyCategory_in_canonical `{host : Host} (s : JSString) :
  In (simplifyCategory s) canonicalCategories.
Proof.
  unfold simplifyCategory.
  repeat match goal with
         | |- context [if ?c then _ else _] => destruct c
         end;
    cbv [canonicalCategories In]; tauto.
Qed.

Lemma insertSorted_Forall {A : Type} (P : A -> Prop) (cmp : A -> A -> Sign)
    (x : A) (l : list A) :
  P x -> Forall P l -> Forall P (insertSorted cmp x l).
Proof.
  intros Hx. induction 1 as [|y l Hy Hl IH]; simpl; [now repeat constructor|].
  destruct (cmp x y); repeat constructor; assumption.
Qed.

Lemma sort_Forall {A : Type} (P : A -> Prop) (cmp : A -> A -> Sign)
    (l : list A) :
  Forall P l -> Forall P (sort cmp l).
Proof.
  induction 1 as [|x l Hx Hl IH]; simpl; [constructor|].
  now apply insertSorted_Forall.
Qed.

(** Sorting by a difference of time values, latest first: no element is
    followed by a later one. *)
Lemma sort_latest_first {A : Type} (time : A -> option Z) (l : list A) :
  Sorted (fun a b =>
            match time a, time b with
            | Some x, Some y => y <= x
            | _, _ => True
            end)
         (sort (fun a b => signOfTimeDifference (time b) (time a)) l).
Proof.
  apply Sorted_weaken
    with (R := fun a b => signOfTimeDifference (time b) (time a) <> Positive).
  - intros a b. unfold signOfTimeDifference.
    destruct (time a) as [x|], (time b) as [y|]; try tauto.
    destruct (Z.compare_spec y x) as [E|E|E]; intros Hne; try lia.
    now exfalso.
  - apply sort_Sorted. intros a b. unfold signOfTimeDifference.
    destruct (time a) as [x|], (time b) as [y|]; try discriminate.
    destruct (Z.compare_spec y x), (Z.compare_spec x y);
      try discriminate; try lia.
Qed.

(** A list of dated elements that is sorted pairwise is sorted throughout. *)
Lemma Sorted_dated {A : Type} (time : A -> option Z) (le : Z -> Z -> Prop)
    (l : list A) :
  (forall x y z, le x y -> le y z -> le x z) ->
  Forall (fun a => time a <> None) l ->
  Sorted (fun a b =>
            match time a, time b with
            | Some x, Some y => le x y
            | _, _ => True
            end) l ->
  StronglySorted
    (fun a b => exists x y, time a = Some x /\ time b = Some y /\ le x y) l.
Proof.
  intros Htrans Hvalid.
  induction Hvalid as [|a l Ha Hvalid IH]; intros Hs; [constructor|].
  apply Sorted_inv in Hs. destruct Hs as [Hs Hhd]. specialize (IH Hs).
  constructor; [exact IH|].
  destruct Hhd as [|b l' Hab]; [constructor|].
  inversion IH as [|? ? _ Hb]; subst. inversion Hvalid as [|? ? Hbv _]; subst.
  destruct (time a) as [x|] eqn:Ex; [|now destruct Ha].
  destruct (time b) as [y|] eqn:Ey; [|now destruct Hbv].
  constructor.
  - exists x, y. auto.
  - eapply List.Forall_impl; [|exact Hb].
    intros c (y' & z & Ey' & Ez & Hyz).
    exists x, z. assert (y' = y) by congruence. subst y'. eauto.
Qed.

Lemma sort_latestFirst (l : list Transaction) :
  Forall (fun t => getTime (date t) <> None) l ->
  latestFirst
    (sort (fun a b =>
             signOfTimeDifference (getTime (date b)) (getTime (date a))) l).
Proof.
  intros Hvalid. unfold latestFirst.
  apply (Sorted_dated (fun t => getTime (date t)) (fun x y => y <= x)).
  - intros; lia.
  - now apply sort_Forall.
  - apply (sort_latest_first (fun t => getTime (date t))).
Qed.

Section Builder2.
Context `{host : Host}.

Lemma parseRow_payload (file : JSString) (transactions : list Transaction)
    (row : gmap JSString JSString) (w : World) :
  List.map payload (fst (parseRow file transactions row w))
  = List.map payload transactions
    ++ (if keepRow row then [rowPayload file row] else []).
Proof.
  unfold parseRow, keepRow.
  destruct (falsy (row !! js "Date") || falsy (row !! js "Description")
            || falsy (row !! js "Amount")); simpl;
    [now rewrite app_nil_r|].
  match goal with
  | |- context [PrimFloat.leb ?a ?b] => destruct (PrimFloat.leb a b)
  end; simpl; [now rewrite app_nil_r|].
  unfold bind, ret. destruct (generateId w) as [i w1].
  match goal with
  | |- context [parseDate ?s w1] => destruct (parseDate s w1) as [d w2]
  end.
  simpl. rewrite List.map_app. reflexivity.
Qed.

Lemma forEach_parseRow_payload (file : JSString)
    (rows : list (gmap JSString JSString)) (transactions : list Transaction)
    (w : World) :
  List.map payload (fst (forEach (parseRow file) rows transactions w))
  = List.map payload transactions
    ++ List.map (rowPayload file) (List.filter keepRow rows).
Proof.
  revert transactions w. induction rows as [|row rows IH];
    intros transactions w; simpl.
  - now rewrite app_nil_r.
  - unfold bind. pose proof (parseRow_payload file transactions row w) as Hrow.
    destruct (parseRow file transactions row w) as [transactions' w'].
    simpl in Hrow. rewrite IH, Hrow, <- app_assoc.
    destruct (keepRow row); reflexivity.
Qed.

(** X1: the records are exactly the rows that pass the guards: apart from
    identifiers and dates, and up to the final sort, the result is the list
    of the kept rows, field by field. *)
Theorem parseCSV_payload (csvContent file : JSString) (w : World) :
  Permutation
    (List.map payload (fst (parseCSV csvContent file w)))
    (List.map (rowPayload file) (List.filter keepRow (Papa_parse csvContent))).
Proof.
  unfold parseCSV, bind, ret.
  pose proof (forEach_parseRow_payload file (Papa_parse csvContent) [] w)
    as Hloop.
  destruct (forEach (parseRow file) (Papa_parse csvContent) [] w)
    as [transactions w'].
  simpl in *. rewrite <- Hloop.
  apply Permutation_map, sort_Permutation.
Qed.

(** What every record of a parsed document satisfies. *)
Lemma parseCSV_records (csvContent file : JSString) (w : World) :
  Forall (fun t =>
            fileId t = file
            /\ In (category t) canonicalCategories
            /\ trim (description t) = description t
            /\ (0 <? amount t)%float = true)
         (fst (parseCSV csvContent file w)).
Proof.
  apply List.Forall_forall. intros t Ht.
  apply parseCSV_builtFrom in Ht.
  destruct Ht as (row & _ & _ & _ & _ & Hamount & Hpositive & Hdescription
                  & Hcategory & _ & _ & Hfile).
  split; [exact Hfile|]. split; [|split].
  - rewrite Hcategory. apply simplifyCategory_in_canonical.
  - rewrite Hdescription. apply trim_trim.
  - apply float_positive; [|exact Hpositive].
    rewrite Hamount. apply parseAmount_not_nan.
Qed.

(** X2: every record carries the document identifier and a canonical
    category, and its description has no white space at either end. *)
Theorem parseCSV_record_invariants (csvContent file : JSString) (w : World) :
  Forall (fun t =>
            fileId t = file
            /\ In (category t) canonicalCategories
            /\ trim (description t) = description t)
         (fst (parseCSV csvContent file w)).
Proof.
  eapply List.Forall_impl; [|apply parseCSV_records]. simpl. tauto.
Qed.

(** X3: when no record has an Invalid Date, the records come latest first:
    each is dated no earlier than every record after it. *)
Theorem parseCSV_latest_first (csvContent file : JSString) (w : World) :
  Forall (fun t => getTime (date t) <> None)
         (fst (parseCSV csvContent file w)) ->
  latestFirst (fst (parseCSV csvContent file w)).
Proof.
  unfold parseCSV, bind, ret.
  destruct (forEach (parseRow file) (Papa_parse csvContent) [] w)
    as [transactions w'].
  simpl. intros Hvalid. apply sort_latestFirst.
  apply List.Forall_forall. intros t Ht.
  rewrite List.Forall_forall in Hvalid. apply Hvalid.
  apply (Permutation_in t (Permutation_sym (sort_Permutation _ _))). exact Ht.
Qed.

(** X4: a row without a category, or with an empty one, gives a record of
    category Other. *)
Theorem parseCSV_default_category (csvContent file : JSString) (w : World)
    (t : Transaction) :
  In t (fst (parseCSV csvContent file w)) ->
  exists row,
    In row (Papa_parse csvContent)
    /\ description t = trim (default [] (row !! js "Description"))
    /\ (falsy (row !! js "Category") = true -> category t = js "Other").
Proof.
  intros Ht. apply parseCSV_builtFrom in Ht.
  destruct Ht as (row & Hrow & _ & _ & _ & _ & _ & Hdescription & Hcategory
                  & _).
  exists row. split; [exact Hrow|]. split; [exact Hdescription|].
  intros Habsent. rewrite Hcategory.
  destruct (row !! js "Category") as [[|c s]|]; try discriminate;
    vm_compute; reflexivity.
Qed.

End Builder2.

Lemma parseCSV_default_category_witness :
  exists t,
    In t (fst (@parseCSV ExampleHost.host
                 (js "Date,Description,Amount" ++ [10%N]
                  ++ js "03/15/2024,CITY PARKING,4.00")
                 (js "f1") 0%nat))
    /\ category t = js "Other".
Proof.
  pose proof (@parseCSV_default_category ExampleHost.host
                (js "Date,Description,Amount" ++ [10%N]
                 ++ js "03/15/2024,CITY PARKING,4.00")
                (js "f1") 0%nat) as Hspec.
  remember (fst (@parseCSV ExampleHost.host
                   (js "Date,Description,Amount" ++ [10%N]
                    ++ js "03/15/2024,CITY PARKING,4.00")
                   (js "f1") 0%nat)) as out eqn:Hout.
  vm_compute in Hout. subst out.
  eexists. split; [left; reflexivity|].
  destruct (Hspec _ (or_introl eq_refl)) as (row & Hrow & _ & Hother).
  vm_compute in Hrow. destruct Hrow as [<- | []].
  apply Hother. vm_compute. reflexivity.
Defined.

Lemma parseCSV_latest_first_witness :
  latestFirst (fst (@parseCSV ExampleHost.host ExampleEngine.statementOfThree
                      (js "f1") 0%nat)).
Proof.
  apply (@parseCSV_latest_first ExampleHost.host
           ExampleEngine.statementOfThree (js "f1") 0%nat).
  vm_compute. repeat constructor; discriminate.
Defined.


(* ================================================================== *)
(** ** The merchant extractor *)
(* ================================================================== *)

Lemma split_head_no_separator (isSep : N -> bool) (s : JSString) :
  Forall (fun c => isSep c = false) (nth 0 (split isSep s) []).
Proof.
  unfold split. induction s as [|c s IH]; simpl; [constructor|].
  destruct (splitAt isSep s) as [piece pieces]. simpl in IH.
  destruct (isSep c) eqn:Hc; simpl; [constructor | now constructor].
Qed.

(** X5: the merchant name is the description up to its first digit, trimmed;
    the whole description, trimmed, when it has no digit. *)
Theorem merchantName_prefix (t : Transaction) (a rest : JSString) :
  description t = a ++ rest ->
  Forall (fun c => isDigit c = false) a ->
  rest = [] \/ (exists c r, rest = c :: r /\ isDigit c = true) ->
  merchantName t = trim a.
Proof.
  intros Hdescription Ha Hrest. unfold merchantName. rewrite Hdescription.
  destruct Hrest as [-> | (c & r & -> & Hc)].
  - rewrite app_nil_r, (split_no_separator _ _ Ha). reflexivity.
  - rewrite (split_at_separator _ a r c Ha Hc). reflexivity.
Qed.

Lemma merchantName_prefix_witness :
  merchantName (Examples.purchase "STARBUCKS #1234" "Restaurant" 12.5)
  = js "STARBUCKS #".
Proof.
  apply (merchantName_prefix _ (js "STARBUCKS #") (js "1234")).
  - reflexivity.
  - repeat constructor.
  - right. exists 49%N, (js "234"). split; reflexivity.
Defined.

(** X6: a merchant name holds no digit and has no white space at either
    end. *)
Theorem merchantName_no_digit (t : Transaction) :
  Forall (fun c => isDigit c = false) (merchantName t)
  /\ trim (merchantName t) = merchantName t.
Proof.
  unfold merchantName. split; [|apply trim_trim].
  apply trim_Forall, split_head_no_separator.
Qed.

(* ================================================================== *)
(** ** Sums of positive amounts *)
(* ================================================================== *)

Lemma fold_add_positive (l : list Transaction) (sum : float) :
  (0 <? sum)%float = true ->
  Forall (fun t => (0 <? amount t)%float = true) l ->
  (0 <? fold_left (fun sum t => (sum + amount t)%float) l sum)%float = true.
Proof.
  intros Hsum Hl. revert sum Hsum.
  induction Hl as [|t l Ht _ IH]; intros sum Hsum; simpl; [exact Hsum|].
  apply IH, float_add_positive; assumption.
Qed.

(** The sum of a nonempty list of positive amounts is positive, hence not
    NaN. *)
Lemma sumOfAmounts_positive (l : list Transaction) :
  l <> [] -> Forall (fun t => (0 <? amount t)%float = true) l ->
  (0 <? sumOfAmounts l)%float = true.
Proof.
  intros Hne Hl. destruct Hl as [|t l Ht Hl]; [contradiction|].
  unfold sumOfAmounts. simpl.
  apply fold_add_positive; [apply float_zero_add_positive, Ht | exact Hl].
Qed.

Lemma withKey_Forall (P : Transaction -> Prop) (key : Transaction -> JSString)
    (k : JSString) (l : list Transaction) :
  Forall P l -> Forall P (withKey key k l).
Proof.
  unfold withKey. induction 1 as [|t l Ht _ IH]; simpl; [constructor|].
  destruct (bool_decide (key t = k)); [now constructor | exact IH].
Qed.

(* ================================================================== *)
(** ** Sorted lists, strongly *)
(* ================================================================== *)

Lemma Sorted_StronglySorted_on {A : Type} (P : A -> Prop) (R : A -> A -> Prop)
    (l : list A) :
  (forall a b c, P b -> R a b -> R b c -> R a c) ->
  Forall P l -> Sorted R l -> StronglySorted R l.
Proof.
  intros Htrans HP. induction HP as [|x l Hx HP IH]; intros Hl;
    [constructor|].
  apply Sorted_inv in Hl. destruct Hl as [Hl Hhd].
  specialize (IH Hl). constructor; [exact IH|].
  destruct Hhd as [|y l' Hxy]; [constructor|].
  inversion IH as [|? ? _ Hy]; subst. inversion HP as [|? ? Py _]; subst.
  constructor; [exact Hxy|].
  eapply List.Forall_impl; [|exact Hy]. intros z Hyz.
  exact (Htrans x y z Py Hxy Hyz).
Qed.

Lemma StronglySorted_app_inv {A : Type} (R : A -> A -> Prop)
    (l1 l2 : list A) :
  StronglySorted R (l1 ++ l2) ->
  forall a b, In a l1 -> In b l2 -> R a b.
Proof.
  induction l1 as [|x l1 IH]; simpl; intros Hs a b Ha Hb; [destruct Ha|].
  inversion Hs as [|? ? Hs' Hx]; subst.
  destruct Ha as [<- | Ha]; [|now apply IH].
  rewrite List.Forall_forall in Hx. apply Hx, in_or_app. now right.
Qed.

Lemma Sorted_firstn {A : Type} (R : A -> A -> Prop) (n : nat) (l : list A) :
  Sorted R l -> Sorted R (firstn n l).
Proof.
  revert l. induction n as [|n IH]; intros l Hl; simpl; [constructor|].
  destruct l as [|x l]; [constructor|].
  apply Sorted_inv in Hl. destruct Hl as [Hl Hhd].
  constructor; [now apply IH|].
  destruct Hhd as [|y l' Hxy]; [destruct n; constructor|].
  destruct n; simpl; constructor. exact Hxy.
Qed.

Lemma In_firstn {A : Type} (n : nat) (l : list A) (x : A) :
  In x (firstn n l) -> In x l.
Proof.
  intros Hx. rewrite <- (firstn_skipn n l). apply in_or_app. now left.
Qed.

Lemma list_sum_firstn (n : nat) (l : list nat) :
  (list_sum (firstn n l) <= list_sum l)%nat.
Proof.
  revert l. induction n as [|n IH]; intros [|x l]; simpl; try lia.
  specialize (IH l). lia.
Qed.

(* ================================================================== *)
(** ** Top merchants, continued *)
(* ================================================================== *)

(** The ranking before the slice. *)
Lemma getTopMerchants_slice (transactions : list Transaction) (limit : Z) :
  exists k,
    getTopMerchants transactions limit
    = firstn k (getTopMerchants transactions
                  (Z.of_nat (length (distinct
                                       (List.map merchantName transactions))))).
Proof.
  unfold getTopMerchants.
  pose proof (ranking_Permutation transactions) as Hranking.
  apply Permutation_length in Hranking. rewrite length_map in Hranking.
  rewrite (slice0_all _ (Z.of_nat _)) by lia.
  unfold slice0 at 1. eexists. reflexivity.
Qed.

Lemma ranking_entry (transactions : list Transaction) (limit : Z)
    (e : MerchantTotal.t) :
  In e (getTopMerchants transactions limit) ->
  exists k,
    In k (List.map merchantName transactions)
    /\ e = {| MerchantTotal.name := k;
              MerchantTotal.total :=
                sumOfAmounts (withKey merchantName k transactions);
              MerchantTotal.count :=
                length (withKey merchantName k transactions) |}.
Proof.
  intros He. unfold getTopMerchants, slice0 in He. apply In_firstn in He.
  apply (Permutation_in _ (ranking_Permutation transactions)) in He.
  apply in_map_iff in He. destruct He as (k & <- & Hk).
  exists k. split; [|reflexivity].
  unfold distinct in Hk. now rewrite nodup_In in Hk.
Qed.

(** X7: for a limit that is not negative the result has [limit] entries, or
    one per distinct merchant name when there are fewer. *)
Theorem getTopMerchants_length (transactions : list Transaction) (limit : Z) :
  0 <= limit ->
  Z.of_nat (length (getTopMerchants transactions limit))
  = Z.min limit
      (Z.of_nat (length (distinct (List.map merchantName transactions)))).
Proof.
  intros Hlimit. unfold getTopMerchants.
  pose proof (ranking_Permutation transactions) as Hranking.
  apply Permutation_length in Hranking. rewrite length_map in Hranking.
  unfold slice0. destruct (Z.ltb_spec limit 0) as [Hneg|_]; [lia|].
  rewrite length_firstn, Hranking. lia.
Qed.

Lemma getTopMerchants_length_witness :
  length (getTopMerchants Examples.purchases 2) = 2%nat.
Proof.
  pose proof (getTopMerchants_length Examples.purchases 2 ltac:(lia)) as H.
  vm_compute in H |- *. reflexivity.
Defined.

(** X8: every entry of the result stands for a merchant name that occurs:
    its count is the number of the records with that name, at least one, and
    its total is their amounts added in the order of the input. *)
Theorem getTopMerchants_entry (transactions : list Transaction) (limit : Z)
    (e : MerchantTotal.t) :
  In e (getTopMerchants transactions limit) ->
  In (MerchantTotal.name e) (List.map merchantName transactions)
  /\ MerchantTotal.count e
     = length (withKey merchantName (MerchantTotal.name e) transactions)
  /\ (1 <= MerchantTotal.count e)%nat
  /\ MerchantTotal.total e
     = sumOfAmounts (withKey merchantName (MerchantTotal.name e) transactions).
Proof.
  intros He. destruct (ranking_entry _ _ _ He) as (k & Hk & ->). simpl.
  split; [exact Hk|]. split; [reflexivity|]. split; [|reflexivity].
  apply withKey_nonempty in Hk.
  destruct (withKey merchantName k transactions); [contradiction | simpl; lia].
Qed.

Lemma getTopMerchants_entry_witness :
  exists e,
    In e (getTopMerchants Examples.purchases 1)
    /\ MerchantTotal.name e = js "WHOLE FOODS"
    /\ MerchantTotal.count e = 1%nat.
Proof.
  remember (getTopMerchants Examples.purchases 1) as out eqn:Hout.
  assert (Hspec := getTopMerchants_entry Examples.purchases 1).
  rewrite <- Hout in Hspec. vm_compute in Hout. subst out.
  eexists. split; [left; reflexivity|]. split; [reflexivity|].
  destruct (Hspec _ (or_introl eq_refl)) as (_ & Hcount & _).
  exact Hcount.
Defined.

(** X9: the counts of the result add up to at most the number of records,
    and to exactly that number when the limit cuts nothing off. *)
Theorem getTopMerchants_counts (transactions : list Transaction) (limit : Z) :
  (list_sum (List.map MerchantTotal.count
                      (getTopMerchants transactions limit))
   <= length transactions)%nat
  /\ (Z.of_nat (length (distinct (List.map merchantName transactions)))
      <= limit ->
      list_sum (List.map MerchantTotal.count
                         (getTopMerchants transactions limit))
      = length transactions).
Proof.
  assert (Hall :
            list_sum
              (List.map MerchantTotal.count
                 (sort (fun a b =>
                          signOfNumber
                            (MerchantTotal.total b - MerchantTotal.total a))
                    (List.map (fun '(name, data) =>
                                 {| MerchantTotal.name := name;
                                    MerchantTotal.total := Entry.total data;
                                    MerchantTotal.count := Entry.count data |})
                       (fold_left (addToMap merchantName) transactions []))))
            = length transactions).
  { rewrite (list_sum_Permutation _ _
               (Permutation_map _ (sort_Permutation _ _))).
    rewrite List.map_map.
    rewrite <- (aggregate_countSum merchantName transactions).
    unfold countSum. f_equal. apply List.map_ext. now intros [k v]. }
  split.
  - unfold getTopMerchants, slice0. rewrite <- firstn_map, <- Hall.
    apply list_sum_firstn.
  - intros Hlimit. unfold getTopMerchants.
    pose proof (ranking_Permutation transactions) as Hranking.
    apply Permutation_length in Hranking. rewrite length_map in Hranking.
    rewrite slice0_all by lia. exact Hall.
Qed.

(** X10: when every amount is positive, the result is sorted, each entry
    having a total no smaller than every entry after it, and the entries
    kept are the highest of the ranking: none has a smaller total than an
    entry that the limit cut off. *)
Theorem getTopMerchants_highest (transactions : list Transaction) (limit : Z) :
  Forall (fun t => (0 <? amount t)%float = true) transactions ->
  StronglySorted
    (fun a b =>
       (MerchantTotal.total a <? MerchantTotal.total b)%float = false)
    (getTopMerchants transactions limit)
  /\ (forall e e',
        In e (getTopMerchants transactions limit) ->
        In e' (getTopMerchants transactions
                 (Z.of_nat (length (distinct
                                      (List.map merchantName transactions))))) ->
        ~ In e' (getTopMerchants transactions limit) ->
        (MerchantTotal.total e <? MerchantTotal.total e')%float = false).
Proof.
  intros Hpositive.
  assert (Hsorted : forall n,
            StronglySorted
              (fun a b =>
                 (MerchantTotal.total a <? MerchantTotal.total b)%float
                 = false) (getTopMerchants transactions n)).
  { intros n. apply Sorted_StronglySorted_on
      with (P := fun e => is_nan (MerchantTotal.total e) = false).
    - intros a b c Hb. now apply float_not_less_trans.
    - apply List.Forall_forall. intros x Hx.
      destruct (ranking_entry _ _ _ Hx) as (key & Hkey & ->). simpl.
      apply float_positive_not_nan, sumOfAmounts_positive.
      + now apply withKey_nonempty.
      + now apply withKey_Forall.
    - unfold getTopMerchants, slice0.
      apply Sorted_firstn, sort_descending. }
  split; [apply Hsorted|].
  intros e e' He He' Hcut.
  destruct (getTopMerchants_slice transactions limit) as [k Hk].
  specialize (Hsorted (Z.of_nat (length (distinct
                                           (List.map merchantName
                                                     transactions))))).
  set (ranking := getTopMerchants transactions
                    (Z.of_nat (length (distinct
                                         (List.map merchantName
                                                   transactions))))) in *.
  rewrite Hk in He, Hcut.
  rewrite <- (firstn_skipn k ranking) in Hsorted, He'.
  apply in_app_or in He'. destruct He' as [He' | He']; [contradiction|].
  exact (StronglySorted_app_inv _ _ _ Hsorted e e' He He').
Qed.

Lemma getTopMerchants_highest_witness :
  StronglySorted
    (fun a b =>
       (MerchantTotal.total a <? MerchantTotal.total b)%float = false)
    (getTopMerchants Examples.purchases 1)
  /\ (forall e e',
        In e (getTopMerchants Examples.purchases 1) ->
        In e' (getTopMerchants Examples.purchases
                 (Z.of_nat (length (distinct
                                      (List.map merchantName
                                                Examples.purchases))))) ->
        ~ In e' (getTopMerchants Examples.purchases 1) ->
        (MerchantTotal.total e <? MerchantTotal.total e')%float = false).
Proof.
  apply (getTopMerchants_highest Examples.purchases 1).
  repeat constructor.
Defined.

(* ================================================================== *)
(** ** Category totals, continued *)
(* ================================================================== *)

Section CategoryTotals2.
Context `{host : Host}.

Lemma getCategoryTotals_entry (transactions : list Transaction)
    (e : CategoryTotal.t) :
  In e (getCategoryTotals transactions) ->
  exists c,
    In c (List.map category transactions)
    /\ e = {| CategoryTotal.category := c;
              CategoryTotal.total :=
                sumOfAmounts (withKey category c transactions);
              CategoryTotal.count := length (withKey category c transactions);
              CategoryTotal.color := getCategoryColor c |}.
Proof.
  intros He. unfold getCategoryTotals in He.
  apply (Permutation_in _ (sort_Permutation _ _)) in He.
  apply in_map_iff in He. destruct He as ([c v] & <- & Hcv).
  apply (Permutation_in _ (aggregate_entries category transactions)) in Hcv.
  apply in_map_iff in Hcv. destruct Hcv as (c' & E & Hc). inversion E; subst.
  exists c. split; [|reflexivity].
  unfold distinct in Hc. now rewrite nodup_In in Hc.
Qed.

Lemma getCategoryTotals_positive (transactions : list Transaction) :
  Forall (fun t => (0 <? amount t)%float = true) transactions ->
  Forall (fun e => (0 <? CategoryTotal.total e)%float = true)
         (getCategoryTotals transactions).
Proof.
  intros Hpositive. apply List.Forall_forall. intros e He.
  destruct (getCategoryTotals_entry _ _ He) as (c & Hc & ->). simpl.
  apply sumOfAmounts_positive.
  - now apply withKey_nonempty.
  - now apply withKey_Forall.
Qed.

(** X11: when every amount is positive, the first entry of the category
    totals, which the dashboard shows as the top category, has the highest
    total: no other entry has a larger one. *)
Theorem getCategoryTotals_top (transactions : list Transaction)
    (top : CategoryTotal.t) (others : list CategoryTotal.t) :
  Forall (fun t => (0 <? amount t)%float = true) transactions ->
  getCategoryTotals transactions = top :: others ->
  Forall (fun e =>
            (CategoryTotal.total top <? CategoryTotal.total e)%float = false)
         others.
Proof.
  intros Hpositive Hout.
  assert (Hsorted :
            StronglySorted
              (fun a b =>
                 (CategoryTotal.total a <? CategoryTotal.total b)%float
                 = false) (getCategoryTotals transactions)).
  { apply Sorted_StronglySorted_on
      with (P := fun e => is_nan (CategoryTotal.total e) = false).
    - intros a b c Hb. now apply float_not_less_trans.
    - eapply List.Forall_impl; [|apply getCategoryTotals_positive, Hpositive].
      intros e. apply float_positive_not_nan.
    - apply sort_descending. }
  rewrite Hout in Hsorted. now inversion Hsorted.
Qed.

(** X12: the category totals of a parsed document: every entry has a
    canonical category, a positive total and at least one record, and its
    color is never the one the table gives to Shopping or Subscriptions. *)
Theorem getCategoryTotals_of_parseCSV (csvContent file : JSString)
    (w : World) :
  Forall (fun e =>
            In (CategoryTotal.category e) canonicalCategories
            /\ (0 <? CategoryTotal.total e)%float = true
            /\ (1 <= CategoryTotal.count e)%nat
            /\ CategoryTotal.color e <> js "#22c55e"
            /\ CategoryTotal.color e <> js "#3b82f6")
         (getCategoryTotals (fst (parseCSV csvContent file w))).
Proof.
  set (records := fst (parseCSV csvContent file w)).
  pose proof (parseCSV_records csvContent file w) as Hrecords.
  fold records in Hrecords.
  assert (Hpositive : Forall (fun t => (0 <? amount t)%float = true) records).
  { eapply List.Forall_impl; [|exact Hrecords]. simpl. tauto. }
  pose proof (getCategoryTotals_positive records Hpositive) as Htotals.
  rewrite List.Forall_forall in Htotals, Hrecords.
  apply List.Forall_forall. intros e He.
  split; [|split; [now apply Htotals|]];
    destruct (getCategoryTotals_entry _ _ He) as (c & Hc & ->); simpl.
  - apply in_map_iff in Hc. destruct Hc as (t & <- & Ht).
    now apply Hrecords.
  - split.
    + apply withKey_nonempty in Hc.
      destruct (withKey category c records); [contradiction | simpl; lia].
    + apply in_map_iff in Hc. destruct Hc as (t & <- & Ht).
      destruct (Hrecords t Ht) as (_ & Hcanonical & _).
      revert Hcanonical. generalize (category t). intros c Hc.
      repeat (destruct Hc as [<- | Hc];
              [split; vm_compute; discriminate|]).
      destruct Hc.
Qed.

End CategoryTotals2.

Lemma getCategoryTotals_top_witness :
  Forall (fun e => (0.7 <? CategoryTotal.total e)%float = false)
         [ {| CategoryTotal.category := js "Restaurant";
              CategoryTotal.total := 0.4; CategoryTotal.count := 2;
              CategoryTotal.color := js "#ef4444" |} ].
Proof.
  apply (@getCategoryTotals_top ExampleHost.host Examples.purchases
           {| CategoryTotal.category := js "Groceries";
              CategoryTotal.total := 0.7; CategoryTotal.count := 1;
              CategoryTotal.color := js "#f97316" |}).
  - repeat constructor.
  - vm_compute. reflexivity.
Defined.

(* ================================================================== *)
(** ** Category totals in order *)
(* ================================================================== *)

Lemma SFltb_false_SFleb (x y : spec_float) :
  x <> S754_nan -> y <> S754_nan ->
  SFltb x y = false -> SFleb y x = true.
Proof.
  intros Hx Hy. unfold SFltb, SFleb.
  destruct x as [sx|sx| |sx mx ex], y as [sy|sy| |sy my ey];
    try congruence;
    try (destruct sx; try destruct sy; cbn; congruence);
    try (destruct sy; cbn; congruence); try (cbn; congruence).
  cbn [SFcompare].
  rewrite (Z.compare_antisym ex ey).
  change (Pos.compare_cont Eq my mx) with (Pos.compare my mx).
  change (Pos.compare_cont Eq mx my) with (Pos.compare mx my).
  rewrite (Pos.compare_antisym mx my).
  destruct sx, sy, (ex ?= ey), (mx ?= my)%positive; cbn; congruence.
Qed.

Lemma is_nan_false (a : float) : is_nan a = false -> Prim2SF a <> S754_nan.
Proof.
  unfold is_nan. rewrite FloatAxioms.eqb_spec. intros Ha E.
  rewrite E in Ha. discriminate Ha.
Qed.

(** Of two numbers, neither NaN: if the first is not below the second, the
    second is at most the first. *)
Lemma float_not_less_leb (a b : float) :
  is_nan a = false -> is_nan b = false ->
  (a <? b)%float = false -> (b <=? a)%float = true.
Proof.
  intros Ha Hb. rewrite FloatAxioms.ltb_spec, FloatAxioms.leb_spec.
  apply SFltb_false_SFleb; now apply is_nan_false.
Qed.

Lemma StronglySorted_weaken_on {A : Type} (P : A -> Prop)
    (R S : A -> A -> Prop) (l : list A) :
  (forall a b, P a -> P b -> R a b -> S a b) ->
  Forall P l -> StronglySorted R l -> StronglySorted S l.
Proof.
  intros HRS HP Hl. induction Hl as [|x l Hl IH Hx]; [constructor|].
  inversion HP as [|? ? Px Pl]; subst.
  constructor; [now apply IH|].
  rewrite List.Forall_forall in Hx, Pl. apply List.Forall_forall.
  intros y Hy. apply HRS; auto.
Qed.

Section CategoryTotals3.
Context `{host : Host}.

(** C8, amended: when no total is NaN, the output is sorted non-increasing
    by total, every entry having a total at most that of each entry before
    it; for every record sequence the output has one entry per distinct
    category, whose total is the binary64 sum, in statement order, of the
    amounts of that category and whose count is their number, and the
    counts add up to the number of records. *)
Theorem getCategoryTotals_sorted_grouped (transactions : list Transaction) :
  (Forall (fun e => is_nan (CategoryTotal.total e) = false)
          (getCategoryTotals transactions) ->
   StronglySorted
     (fun a b =>
        (CategoryTotal.total b <=? CategoryTotal.total a)%float = true)
     (getCategoryTotals transactions))
  /\ Permutation
       (List.map (fun e => (CategoryTotal.category e, CategoryTotal.total e,
                            CategoryTotal.count e))
                 (getCategoryTotals transactions))
       (List.map (fun c => (c, sumOfAmounts (withKey category c transactions),
                            length (withKey category c transactions)))
                 (distinct (List.map category transactions)))
  /\ list_sum (List.map CategoryTotal.count (getCategoryTotals transactions))
     = length transactions.
Proof.
  split; [|split].
  - intros Hnumbers.
    apply StronglySorted_weaken_on
      with (P := fun e => is_nan (CategoryTotal.total e) = false)
           (R := fun a b =>
                   (CategoryTotal.total a <? CategoryTotal.total b)%float
                   = false);
      [|exact Hnumbers|].
    + intros a b Ha Hb. now apply float_not_less_leb.
    + apply Sorted_StronglySorted_on
        with (P := fun e => is_nan (CategoryTotal.total e) = false);
        [|exact Hnumbers|apply sort_descending].
      intros a b c Hb. now apply float_not_less_trans.
  - apply getCategoryTotals_Permutation.
  - unfold getCategoryTotals.
    rewrite (list_sum_Permutation _ _
               (Permutation_map _ (sort_Permutation _ _))).
    rewrite List.map_map.
    rewrite <- (aggregate_countSum category transactions).
    unfold countSum. f_equal. apply List.map_ext. now intros [k v].
Qed.

End CategoryTotals3.

Lemma getCategoryTotals_sorted_grouped_witness :
  StronglySorted
    (fun a b =>
       (CategoryTotal.total b <=? CategoryTotal.total a)%float = true)
    (@getCategoryTotals ExampleHost.host Examples.purchases).
Proof.
  apply (@getCategoryTotals_sorted_grouped ExampleHost.host
           Examples.purchases).
  vm_compute. repeat constructor.
Defined.

(* ================================================================== *)
(** ** Documents *)
(* ================================================================== *)

Section Documents.
Context `{host : Host}.

(** X13: a created document keeps the file name it was given, has a valid
    upload date, and owns its records: each carries the identifier of the
    document, a positive amount and a canonical category. *)
Theorem createStatementFile_invariants (filename csvContent : JSString)
    (w : World) :
  let f := fst (createStatementFile filename csvContent w) in
  StatementFile.filename f = filename
  /\ getTime (StatementFile.uploadDate f) <> None
  /\ Forall (fun t =>
               fileId t = StatementFile.id f
               /\ (0 <? amount t)%float = true
               /\ In (category t) canonicalCategories)
            (StatementFile.transactions f).
Proof.
  unfold createStatementFile, bind, ret.
  destruct (generateId w) as [i w1].
  pose proof (parseCSV_records csvContent i w1) as Hrecords.
  destruct (parseCSV csvContent i w1) as [records w2].
  destruct (Date_now w2) as [now w3]. simpl in *.
  split; [reflexivity|]. split; [discriminate|].
  eapply List.Forall_impl; [|exact Hrecords]. simpl. tauto.
Qed.

(** X14: the transactions of all documents together: every record of every
    document, once; latest first when no record has an Invalid Date. *)
Theorem getAllTransactions_merged (files : list StatementFile.t) :
  Permutation (getAllTransactions files)
              (flat_map StatementFile.transactions files)
  /\ (Forall (fun t => getTime (date t) <> None)
             (flat_map StatementFile.transactions files) ->
      latestFirst (getAllTransactions files)).
Proof.
  split; [apply sort_Permutation | apply sort_latestFirst].
Qed.

End Documents.

(* ================================================================== *)
(** ** The date-range filter *)
(* ================================================================== *)

(** X15: without bounds the filter returns its input, and filtering twice
    by the same bounds is filtering once. *)
Theorem filterTransactionsByDateRange_identity_idempotent
    (transactions : list Transaction) (from to : option Date) :
  filterTransactionsByDateRange transactions None None = transactions
  /\ filterTransactionsByDateRange
       (filterTransactionsByDateRange transactions from to) from to
     = filterTransactionsByDateRange transactions from to.
Proof.
  unfold filterTransactionsByDateRange. split.
  - induction transactions as [|t l IH]; simpl; [reflexivity|].
    now rewrite IH.
  - induction transactions as [|t l IH]; simpl; [reflexivity|].
    destruct (inDateRange from to t) eqn:E; simpl; [|exact IH].
    now rewrite E, IH.
Qed.

(** X16: a record is kept exactly when it is in the input and its time
    value, if it has one, is neither below the lower bound nor above the
    upper one.  A record with an Invalid Date is kept by every range, and
    an absent or invalid bound excludes nothing. *)
Theorem filterTransactionsByDateRange_In (transactions : list Transaction)
    (from to : option Date) (t : Transaction) :
  In t (filterTransactionsByDateRange transactions from to)
  <-> In t transactions
      /\ (forall x f, getTime (date t) = Some x -> from = Some (DateAt f) ->
                      f <= x)
      /\ (forall x u, getTime (date t) = Some x -> to = Some (DateAt u) ->
                      x <= u).
Proof.
  unfold filterTransactionsByDateRange. rewrite List.filter_In.
  unfold inDateRange, dateLess.
  split.
  - intros [Hin Hkeep]. split; [exact Hin|]. split.
    + intros x f Hx ->. rewrite Hx in Hkeep. simpl in Hkeep.
      destruct (Z.ltb_spec x f); [discriminate | lia].
    + intros x u Hx ->. rewrite Hx in Hkeep. simpl in Hkeep.
      destruct from as [[|f]|]; simpl in Hkeep;
        try destruct (x <? f); try discriminate;
        destruct (Z.ltb_spec u x); try discriminate; lia.
  - intros (Hin & Hfrom & Hto). split; [exact Hin|].
    destruct (getTime (date t)) as [x|]; simpl.
    + destruct from as [[|f]|], to as [[|u]|]; simpl; try reflexivity;
        try (specialize (Hfrom x f eq_refl eq_refl));
        try (specialize (Hto x u eq_refl eq_refl));
        repeat match goal with
               | |- context [?a <? ?b] => destruct (Z.ltb_spec a b)
               end; try reflexivity; lia.
    + destruct from as [[|f]|], to as [[|u]|]; reflexivity.
Qed.


(* ================================================================== *)
(** ** Monthly spending *)
(* ================================================================== *)

Lemma resettingSum_positive (l : list Transaction) :
  Forall (fun t => (0 <? amount t)%float = true) l ->
  resettingSum l = sumOfAmounts l.
Proof.
  unfold resettingSum, sumOfAmounts.
  assert (Hgen : forall l sum,
             sum = 0%float \/ (0 <? sum)%float = true ->
             Forall (fun t => (0 <? amount t)%float = true) l ->
             fold_left (fun sum t =>
                          ((if truthyNumber sum then sum else 0) + amount t)%float)
                       l sum
             = fold_left (fun sum t => (sum + amount t)%float) l sum).
  { clear l. intros l sum Hsum Hl. revert sum Hsum.
    induction Hl as [|t l Ht _ IH]; intros sum Hsum; simpl; [reflexivity|].
    assert (E : (if truthyNumber sum then sum else 0%float) = sum).
    { destruct Hsum as [-> | Hsum]; [reflexivity|].
      now rewrite (float_positive_truthy _ Hsum). }
    rewrite E. apply IH. right.
    destruct Hsum as [-> | Hsum];
      [now apply float_zero_add_positive | now apply float_add_positive]. }
  intros Hl. apply Hgen; [now left | exact Hl].
Qed.

Section Monthly.
Context `{calendar : Calendar} `{collation : Collation}.

(** What the loop of [getMonthlySpending] has built once the transactions
    [l] have gone through it. *)
Lemma addToMonth_invariant (rest l : list Transaction) (m : JSMap float) :
  List.NoDup (List.map fst m) ->
  (forall k,
      Map_get m k
      = match withKey monthKey k l with
        | [] => None
        | _ :: _ => Some (resettingSum (withKey monthKey k l))
        end) ->
  List.NoDup (List.map fst (fold_left addToMonth rest m))
  /\ (forall k,
        Map_get (fold_left addToMonth rest m) k
        = match withKey monthKey k (l ++ rest) with
          | [] => None
          | _ :: _ => Some (resettingSum (withKey monthKey k (l ++ rest)))
          end).
Proof.
  revert l m. induction rest as [|t rest IH]; intros l m Hkeys Hget; simpl.
  - rewrite app_nil_r. now split.
  - replace (l ++ t :: rest) with ((l ++ [t]) ++ rest)
      by now rewrite <- app_assoc.
    apply IH; unfold addToMonth.
    + now apply Map_set_NoDup.
    + intros k. rewrite Map_get_set.
      destruct (decide (monthKey t = k)) as [<-|Hne].
      * rewrite withKey_snoc_same, Hget.
        assert (E : resettingSum (withKey monthKey (monthKey t) l ++ [t])
                    = ((if truthyNumber
                             (resettingSum (withKey monthKey (monthKey t) l))
                        then resettingSum (withKey monthKey (monthKey t) l)
                        else 0) + amount t)%float)
          by (unfold resettingSum; now rewrite fold_left_app).
        rewrite E.
        destruct (withKey monthKey (monthKey t) l) eqn:Hl; reflexivity.
      * rewrite (withKey_snoc_other monthKey l t k Hne). apply Hget.
Qed.

Lemma monthlyMap_entries (transactions : list Transaction) :
  Permutation (fold_left addToMonth transactions [])
              (List.map (fun k =>
                           (k, resettingSum (withKey monthKey k transactions)))
                        (distinct (List.map monthKey transactions))).
Proof.
  destruct (addToMonth_invariant transactions [] [] (List.NoDup_nil _)
              (fun k => eq_refl)) as [Hkeys Hget].
  simpl in Hget. set (m := fold_left addToMonth transactions []) in *.
  rewrite (entries_of_keys
             (fun k => resettingSum (withKey monthKey k transactions)) m).
  - apply Permutation_map. apply Permutation.NoDup_Permutation.
    + exact Hkeys.
    + apply NoDup_nodup.
    + intros k. unfold distinct. rewrite nodup_In.
      rewrite <- (withKey_nonempty monthKey). split.
      * intros Hin. apply in_map_iff in Hin.
        destruct Hin as ([k' v] & <- & Hin).
        apply (Map_get_In m k' v Hkeys) in Hin. rewrite Hget in Hin. simpl.
        destruct (withKey monthKey k' transactions); discriminate.
      * intros Hne. specialize (Hget k).
        destruct (withKey monthKey k transactions) eqn:E; [contradiction|].
        apply Map_get_Some in Hget. apply (in_map fst) in Hget. exact Hget.
  - intros k v Hin. apply (Map_get_In m k v Hkeys) in Hin.
    rewrite Hget in Hin.
    destruct (withKey monthKey k transactions); [discriminate|].
    now inversion Hin.
Qed.

Lemma getMonthlySpending_Permutation (transactions : list Transaction) :
  Permutation
    (List.map (fun e => (MonthlySpending.month e, MonthlySpending.total e))
              (getMonthlySpending transactions))
    (List.map (fun k => (k, resettingSum (withKey monthKey k transactions)))
              (distinct (List.map monthKey transactions))).
Proof.
  unfold getMonthlySpending.
  eapply perm_trans; [apply Permutation_map, sort_Permutation|].
  rewrite List.map_map.
  eapply perm_trans; [|apply monthlyMap_entries].
  erewrite List.map_ext; [rewrite List.map_id; apply Permutation_refl|].
  now intros [k v].
Qed.

(** X17: the result has one entry per distinct month key of the input, and
    the total of a month is the amounts of its records added in the order of
    the input, a running total that is zero or NaN being taken for 0 before
    each addition. *)
Theorem getMonthlySpending_entries (transactions : list Transaction) :
  Permutation
    (List.map (fun e => (MonthlySpending.month e, MonthlySpending.total e))
              (getMonthlySpending transactions))
    (List.map (fun k => (k, resettingSum (withKey monthKey k transactions)))
              (distinct (List.map monthKey transactions))).
Proof. apply getMonthlySpending_Permutation. Qed.

(** X18: when every amount is positive, as in a parsed document, the total
    of a month is the plain sum of the amounts of its records, in the order
    of the input, and it is positive. *)
Theorem getMonthlySpending_positive (transactions : list Transaction) :
  Forall (fun t => (0 <? amount t)%float = true) transactions ->
  Permutation
    (List.map (fun e => (MonthlySpending.month e, MonthlySpending.total e))
              (getMonthlySpending transactions))
    (List.map (fun k => (k, sumOfAmounts (withKey monthKey k transactions)))
              (distinct (List.map monthKey transactions)))
  /\ Forall (fun e => (0 <? MonthlySpending.total e)%float = true)
            (getMonthlySpending transactions).
Proof.
  intros Hpositive.
  assert (Hsums :
            List.map (fun k =>
                        (k, resettingSum (withKey monthKey k transactions)))
                     (distinct (List.map monthKey transactions))
            = List.map (fun k =>
                          (k, sumOfAmounts (withKey monthKey k transactions)))
                       (distinct (List.map monthKey transactions))).
  { apply List.map_ext. intros k. f_equal.
    apply resettingSum_positive, withKey_Forall, Hpositive. }
  pose proof (getMonthlySpending_Permutation transactions) as Hentries.
  rewrite Hsums in Hentries. split; [exact Hentries|].
  apply List.Forall_forall. intros e He.
  apply (in_map (fun e => (MonthlySpending.month e, MonthlySpending.total e)))
    in He.
  apply (Permutation_in _ Hentries) in He. apply in_map_iff in He.
  destruct He as (k & E & Hk). injection E as Hmonth Htotal.
  rewrite <- Htotal.
  apply sumOfAmounts_positive; [|now apply withKey_Forall].
  apply withKey_nonempty. unfold distinct in Hk. now rewrite nodup_In in Hk.
Qed.

(** X19: two records of one month, the first with a NaN amount: the month's
    total is the second amount alone, the NaN being forgotten. *)
Theorem getMonthlySpending_forgets_NaN (t1 t2 : Transaction) :
  monthKey t1 = monthKey t2 -> is_nan (amount t1) = true ->
  getMonthlySpending [t1; t2]
  = [ {| MonthlySpending.month := monthKey t2;
         MonthlySpending.total := (0 + amount t2)%float |} ].
Proof.
  intros Hkey Hnan. unfold getMonthlySpending. simpl.
  unfold addToMonth at 2. simpl. unfold addToMonth. simpl.
  rewrite Hkey.
  destruct (decide (monthKey t2 = monthKey t2)) as [_|Hne]; [|congruence].
  assert (Hsum : is_nan (0 + amount t1)%float = true).
  { revert Hnan. unfold is_nan.
    rewrite !FloatAxioms.eqb_spec, FloatAxioms.add_spec, Prim2SF_zero.
    destruct (Prim2SF (amount t1)) as [[]|[]| |[] m e]; cbn; congruence. }
  unfold truthyNumber. rewrite Hsum, orb_true_r. reflexivity.
Qed.

(** X20: the result is sorted by the engine's collation, provided the
    collation never orders two strings both ways. *)
Theorem getMonthlySpending_sorted (transactions : list Transaction) :
  (forall a b, localeCompare a b = Positive -> localeCompare b a <> Positive) ->
  Sorted (fun a b =>
            localeCompare (MonthlySpending.month a) (MonthlySpending.month b)
            <> Positive)
         (getMonthlySpending transactions).
Proof.
  intros Hasym. unfold getMonthlySpending.
  apply (sort_Sorted (fun a b =>
                        localeCompare (MonthlySpending.month a)
                                      (MonthlySpending.month b))).
  intros a b. apply Hasym.
Qed.

End Monthly.


Lemma getMonthlySpending_positive_witness :
  Forall (fun e => (0 <? MonthlySpending.total e)%float = true)
         (@getMonthlySpending ExampleEngine.calendar ExampleEngine.collation
            ExampleEngine.purchases).
Proof.
  apply (@getMonthlySpending_positive ExampleEngine.calendar
           ExampleEngine.collation ExampleEngine.purchases).
  repeat constructor.
Defined.

Lemma getMonthlySpending_forgets_NaN_witness :
  @getMonthlySpending ExampleEngine.calendar ExampleEngine.collation
    [ExampleEngine.purchaseOn 1710460800000 "BAKERY" nan;
     ExampleEngine.purchaseOn 1711929599000 "TRAIN" 2.5]
  = [ {| MonthlySpending.month := js "2024-03";
         MonthlySpending.total := 2.5 |} ].
Proof.
  apply (@getMonthlySpending_forgets_NaN ExampleEngine.calendar
           ExampleEngine.collation
           (ExampleEngine.purchaseOn 1710460800000 "BAKERY" nan)
           (ExampleEngine.purchaseOn 1711929599000 "TRAIN" 2.5)).
  - vm_compute. reflexivity.
  - reflexivity.
Defined.

Lemma compareCodeUnits_asymmetric (a b : JSString) :
  ExampleEngine.compareCodeUnits a b = Positive ->
  ExampleEngine.compareCodeUnits b a <> Positive.
Proof.
  revert b. induction a as [|x a IH]; intros [|y b]; simpl; try discriminate.
  rewrite (N.compare_antisym x y).
  destruct (x ?= y)%N; simpl; try discriminate. apply IH.
Qed.

Lemma getMonthlySpending_sorted_witness :
  Sorted (fun a b =>
            ExampleEngine.compareCodeUnits (MonthlySpending.month a)
                                           (MonthlySpending.month b)
            <> Positive)
         (@getMonthlySpending ExampleEngine.calendar ExampleEngine.collation
            ExampleEngine.purchases).
Proof.
  apply (@getMonthlySpending_sorted ExampleEngine.calendar
           ExampleEngine.collation ExampleEngine.purchases).
  exact compareCodeUnits_asymmetric.
Defined.

(** *** The form of a month key *)

Lemma forallb_range (f : Z -> bool) (lo : Z) (n : nat) :
  forallb f (List.map (fun i => lo + Z.of_nat i) (seq 0 n)) = true ->
  forall y, lo <= y < lo + Z.of_nat n -> f y = true.
Proof.
  intros Hall y Hy. rewrite forallb_forall in Hall. apply Hall.
  apply in_map_iff. exists (Z.to_nat (y - lo)). split; [lia|].
  apply in_seq. lia.
Qed.

Lemma year_digits (y : Z) :
  1000 <= y <= 9999 ->
  length (numberToString (Some y)) = 4%nat
  /\ parseInt (numberToString (Some y)) = Some y.
Proof.
  intros Hy.
  pose (check := fun y : Z =>
                  Nat.eqb (length (numberToString (Some y))) 4
                  && match parseInt (numberToString (Some y)) with
                     | Some v => v =? y
                     | None => false
                     end).
  assert (Hcheck : check y = true).
  { apply (forallb_range check 1000 (Z.to_nat 9000));
      [vm_compute; reflexivity | lia]. }
  unfold check in Hcheck. apply andb_prop in Hcheck. destruct Hcheck as [Hlen Hint].
  split; [now apply Nat.eqb_eq|].
  destruct (parseInt (numberToString (Some y))); [|discriminate].
  f_equal. now apply Z.eqb_eq.
Qed.

Lemma month_digits (m : Z) :
  0 <= m <= 11 ->
  length (padStart2 (numberToString (Some (m + 1)))) = 2%nat
  /\ parseInt (padStart2 (numberToString (Some (m + 1)))) = Some (m + 1).
Proof.
  intros Hm.
  pose (check := fun m : Z =>
                  Nat.eqb (length (padStart2 (numberToString (Some (m + 1))))) 2
                  && match parseInt
                             (padStart2 (numberToString (Some (m + 1))))
                     with
                     | Some v => v =? m + 1
                     | None => false
                     end).
  assert (Hcheck : check m = true).
  { apply (forallb_range check 0 12); [vm_compute; reflexivity | lia]. }
  unfold check in Hcheck. apply andb_prop in Hcheck. destruct Hcheck as [Hlen Hint].
  split; [now apply Nat.eqb_eq|].
  destruct (parseInt (padStart2 (numberToString (Some (m + 1)))));
    [|discriminate].
  f_equal. now apply Z.eqb_eq.
Qed.

(** X21: for a date whose local year has four digits, the month key has
    seven characters, the hyphen fifth; the first four read back as the year
    and the last two as the month number, January being 01. *)
Theorem monthKey_format `{calendar : Calendar} (t : Transaction) (x : Z) :
  getTime (date t) = Some x ->
  1000 <= localYear x <= 9999 -> 0 <= localMonth x <= 11 ->
  length (monthKey t) = 7%nat
  /\ nth 4 (monthKey t) 0%N = 45%N
  /\ parseInt (firstn 4 (monthKey t)) = Some (localYear x)
  /\ parseInt (skipn 5 (monthKey t)) = Some (localMonth x + 1).
Proof.
  intros Hx Hyear Hmonth. unfold monthKey, getFullYear, getMonth.
  rewrite Hx. cbn [option_map].
  destruct (year_digits _ Hyear) as [Hylen Hyint].
  destruct (month_digits _ Hmonth) as [Hmlen Hmint].
  destruct (numberToString (Some (localYear x)))
    as [|a [|b [|c [|d [|? ?]]]]]; try discriminate.
  destruct (padStart2 (numberToString (Some (localMonth x + 1))))
    as [|m1 [|m2 [|? ?]]]; try discriminate.
  repeat split; assumption.
Qed.

Lemma monthKey_format_witness :
  length (@monthKey ExampleEngine.calendar
            (ExampleEngine.purchaseOn 1710460800000 "BAKERY" 1.5)) = 7%nat
  /\ parseInt (skipn 5 (@monthKey ExampleEngine.calendar
                          (ExampleEngine.purchaseOn 1710460800000
                                                    "BAKERY" 1.5)))
     = Some 3.
Proof.
  destruct (@monthKey_format ExampleEngine.calendar
              (ExampleEngine.purchaseOn 1710460800000 "BAKERY" 1.5)
              1710460800000) as (Hlen & _ & _ & Hmonth).
  - reflexivity.
  - vm_compute. split; discriminate.
  - vm_compute. split; discriminate.
  - split; [exact Hlen | exact Hmonth].
Defined.

(* ================================================================== *)
(** ** The stored documents *)
(* ================================================================== *)

Lemma mapOutcome_Thrown {A B : Type} (f : A -> Outcome B) (l : list A) :
  mapOutcome f l = Thrown <-> exists a, In a l /\ f a = Thrown.
Proof.
  induction l as [|a l IH]; simpl.
  - split; [discriminate | intros (a & [] & _)].
  - destruct (f a) as [b|] eqn:Ha.
    + destruct (mapOutcome f l) as [bs|].
      * split; [discriminate|]. intros (a' & [<- | Hin] & Ha').
        -- congruence.
        -- assert (H : @Returned (list B) bs = Thrown)
             by (apply IH; now exists a').
           discriminate H.
      * split; [|reflexivity]. intros _.
        destruct IH as [IH _]. destruct (IH eq_refl) as (a' & Hin & Ha').
        exists a'. split; [now right | exact Ha'].
    + split; [|reflexivity]. intros _. exists a. split; [now left | exact Ha].
Qed.

Section Storage.
Context `{host : Host} `{browser : Browser}.

Lemma storeTransaction_Thrown (t : Transaction) :
  storeTransaction t = Thrown <-> getTime (date t) = None.
Proof.
  unfold storeTransaction, Date_toISOString.
  destruct (date t); simpl; split; congruence.
Qed.

Lemma storeFile_Thrown (f : StatementFile.t) :
  storeFile f = Thrown
  <-> getTime (StatementFile.uploadDate f) = None
      \/ exists t, In t (StatementFile.transactions f)
                   /\ getTime (date t) = None.
Proof.
  unfold storeFile, Date_toISOString.
  destruct (StatementFile.uploadDate f); simpl.
  - split; [now left | reflexivity].
  - pose proof (mapOutcome_Thrown storeTransaction
                  (StatementFile.transactions f)) as Hmap.
    destruct (mapOutcome storeTransaction (StatementFile.transactions f)).
    + split; [discriminate|]. intros [Hdate | (t' & Hin & Ht')];
        [discriminate|].
      assert (H : @Returned (list Stored.transaction) a = Thrown).
      { apply Hmap. exists t'. split; [exact Hin|].
        now apply storeTransaction_Thrown. }
      discriminate H.
    + split; [|reflexivity]. intros _. right.
      destruct Hmap as [Hmap _]. destruct (Hmap eq_refl) as (t' & Hin & Ht').
      exists t'. split; [exact Hin | now apply storeTransaction_Thrown].
Qed.

Lemma saveFiles_Thrown (files : list StatementFile.t)
    (localStorage : gmap JSString JSString) :
  saveFiles files localStorage = Thrown
  <-> hasWindow = true
      /\ exists f,
           In f files
           /\ (getTime (StatementFile.uploadDate f) = None
               \/ exists t, In t (StatementFile.transactions f)
                            /\ getTime (date t) = None).
Proof.
  unfold saveFiles. destruct hasWindow; simpl.
  - pose proof (mapOutcome_Thrown storeFile files) as Hmap.
    destruct (mapOutcome storeFile files).
    + split; [discriminate|]. intros (_ & f & Hin & Hf).
      assert (H : @Returned (list Stored.file) a = Thrown).
      { apply Hmap. exists f. split; [exact Hin|]. now apply storeFile_Thrown. }
      discriminate H.
    + split; [|reflexivity]. intros _. split; [reflexivity|].
      destruct Hmap as [Hmap _]. destruct (Hmap eq_refl) as (f & Hin & Hf).
      exists f. split; [exact Hin | now apply storeFile_Thrown].
  - split; [discriminate | intros [H _]; discriminate H].
Qed.

(** X22: in a browser, [saveFiles] throws, and stores nothing, when the
    upload date of a document or the date of one of its records is an
    Invalid Date. *)
Theorem saveFiles_throws (files : list StatementFile.t)
    (localStorage : gmap JSString JSString) (f : StatementFile.t) :
  hasWindow = true ->
  In f files ->
  getTime (StatementFile.uploadDate f) = None
  \/ (exists t, In t (StatementFile.transactions f)
                /\ getTime (date t) = None) ->
  saveFiles files localStorage = Thrown.
Proof.
  intros Hwindow Hf Hdate. apply saveFiles_Thrown.
  split; [exact Hwindow|]. exists f. split; [exact Hf | exact Hdate].
Qed.

(** X23: the storage functions touch one key only: after [clearFiles]
    nothing is loaded, and neither [clearFiles] nor a [saveFiles] that
    returns changes what another key holds. *)
Theorem storage_frame (files : list StatementFile.t)
    (localStorage : gmap JSString JSString) :
  loadFiles (clearFiles localStorage) = []
  /\ (forall k, k <> STORAGE_KEY ->
        clearFiles localStorage !! k = localStorage !! k
        /\ forall saved, saveFiles files localStorage = Returned saved ->
                         saved !! k = localStorage !! k).
Proof.
  unfold loadFiles, clearFiles, saveFiles. split.
  - destruct hasWindow; simpl; [|reflexivity].
    now rewrite lookup_delete_eq.
  - intros k Hk. destruct hasWindow; simpl.
    + split; [now apply lookup_delete_ne|].
      intros saved. destruct (mapOutcome storeFile files); [|discriminate].
      intros E. inversion E. now apply lookup_insert_ne.
    + split; [reflexivity|]. intros saved E. now inversion E.
Qed.

End Storage.

Lemma saveFiles_throws_witness :
  @saveFiles ExampleEngine.browser [ExampleEngine.undatedFile] ∅ = Thrown.
Proof.
  apply (@saveFiles_throws ExampleEngine.browser [ExampleEngine.undatedFile]
           ∅ ExampleEngine.undatedFile).
  - reflexivity.
  - left. reflexivity.
  - left. reflexivity.
Defined.

(* ================================================================== *)
(** ** The list of the Transactions page *)
(* ================================================================== *)

Lemma includes_empty (s : JSString) : includes s [] = true.
Proof. destruct s; reflexivity. Qed.

Lemma float_nonnegative_bounded (a : float) :
  (0 <=? a)%float = true -> (a <=? infinity)%float = true.
Proof.
  rewrite !FloatAxioms.leb_spec, Prim2SF_zero.
  change (Prim2SF infinity) with (S754_infinity false).
  destruct (Prim2SF a) as [[]|[]| |[] m e]; cbn; congruence.
Qed.

Section Page2.
Context `{host : Host} `{collation : Collation}.

Lemma matches_cleared (st : TransactionsPage.State) (t : Transaction) :
  TransactionsPage.search st = [] ->
  TransactionsPage.categoryFilter st = js "all" ->
  TransactionsPage.minAmount st = [] ->
  TransactionsPage.maxAmount st = [] ->
  TransactionsPage.matches st t = (0 <=? amount t)%float.
Proof.
  intros Hsearch Hcategory Hmin Hmax. unfold TransactionsPage.matches.
  rewrite Hsearch, Hcategory, Hmin, Hmax.
  change (toLowerCase []) with (@nil N). rewrite includes_empty.
  destruct (0 <=? amount t)%float eqn:Hlow; [|reflexivity].
  now rewrite (float_nonnegative_bounded _ Hlow).
Qed.

(** X24: with the filters cleared (no search text, every category, no
    amount bounds) the page lists exactly the records whose amount is zero
    or more, each once, whatever the sort order: every record with a
    positive amount is listed, and a record with a negative or a NaN amount
    is not. *)
Theorem filteredTransactions_cleared (transactions : list Transaction)
    (st : TransactionsPage.State) :
  TransactionsPage.search st = [] ->
  TransactionsPage.categoryFilter st = js "all" ->
  TransactionsPage.minAmount st = [] ->
  TransactionsPage.maxAmount st = [] ->
  Permutation (TransactionsPage.filteredTransactions transactions st)
              (List.filter (fun t => (0 <=? amount t)%float) transactions)
  /\ (forall t, In t transactions -> (0 <? amount t)%float = true ->
                In t (TransactionsPage.filteredTransactions transactions st)).
Proof.
  intros Hsearch Hcategory Hmin Hmax.
  assert (Hlisted :
            Permutation
              (TransactionsPage.filteredTransactions transactions st)
              (List.filter (fun t => (0 <=? amount t)%float) transactions)).
  { unfold TransactionsPage.filteredTransactions.
    eapply perm_trans; [apply sort_Permutation|].
    erewrite List.filter_ext; [apply Permutation_refl|].
    intros t. now apply matches_cleared. }
  split; [exact Hlisted|].
  intros t Ht Hpositive.
  apply (Permutation_in t (Permutation_sym Hlisted)).
  apply List.filter_In. split; [exact Ht|].
  now destruct (float_positive_bounds _ Hpositive).
Qed.

Lemma page_by_date_pairwise (transactions : list Transaction)
    (st : TransactionsPage.State) :
  TransactionsPage.sortField st = TransactionsPage.ByDate ->
  Sorted (fun a b =>
            match getTime (date a), getTime (date b) with
            | Some x, Some y =>
                match TransactionsPage.sortDir st with
                | TransactionsPage.Asc => x <= y
                | TransactionsPage.Desc => y <= x
                end
            | _, _ => True
            end)
         (TransactionsPage.filteredTransactions transactions st).
Proof.
  intros Hfield. unfold TransactionsPage.filteredTransactions.
  apply Sorted_weaken
    with (R := fun a b => TransactionsPage.compareRows st a b <> Positive).
  - intros a b. unfold TransactionsPage.compareRows. rewrite Hfield.
    unfold signOfTimeDifference.
    destruct (getTime (date a)) as [x|], (getTime (date b)) as [y|];
      try tauto.
    destruct (TransactionsPage.sortDir st), (Z.compare_spec x y) as [E|E|E];
      simpl; intros Hne; try lia; now exfalso.
  - apply sort_Sorted. intros a b.
    unfold TransactionsPage.compareRows. rewrite Hfield.
    unfold signOfTimeDifference.
    destruct (getTime (date a)) as [x|], (getTime (date b)) as [y|];
      destruct (TransactionsPage.sortDir st); simpl; try discriminate;
      destruct (Z.compare_spec x y), (Z.compare_spec y x); simpl;
      try discriminate; try lia.
Qed.

(** X25: sorted by date, and no record having an Invalid Date, the page
    lists the records latest first when the direction is descending and
    earliest first when it is ascending. *)
Theorem filteredTransactions_by_date (transactions : list Transaction)
    (st : TransactionsPage.State) :
  TransactionsPage.sortField st = TransactionsPage.ByDate ->
  Forall (fun t => getTime (date t) <> None) transactions ->
  match TransactionsPage.sortDir st with
  | TransactionsPage.Asc =>
      earliestFirst (TransactionsPage.filteredTransactions transactions st)
  | TransactionsPage.Desc =>
      latestFirst (TransactionsPage.filteredTransactions transactions st)
  end.
Proof.
  intros Hfield Hvalid.
  pose proof (page_by_date_pairwise transactions st Hfield)
    as Hpairwise.
  assert (Hlisted : Forall (fun t => getTime (date t) <> None)
                      (TransactionsPage.filteredTransactions transactions st)).
  { unfold TransactionsPage.filteredTransactions. apply sort_Forall.
    apply List.Forall_forall. intros t Ht. apply List.filter_In in Ht.
    rewrite List.Forall_forall in Hvalid. now apply Hvalid. }
  destruct (TransactionsPage.sortDir st).
  - apply (Sorted_dated (fun t => getTime (date t)) (fun x y => x <= y));
      [intros; lia | exact Hlisted | exact Hpairwise].
  - apply (Sorted_dated (fun t => getTime (date t)) (fun x y => y <= x));
      [intros; lia | exact Hlisted | exact Hpairwise].
Qed.

End Page2.

Lemma filteredTransactions_cleared_witness :
  Permutation
    (@TransactionsPage.filteredTransactions ExampleHost.host
       ExampleEngine.collation ExampleEngine.purchasesAndRefund
       ExampleEngine.openedPage)
    [ExampleEngine.purchaseOn 1710460800000 "BAKERY" 1.5;
     ExampleEngine.purchaseOn 1712016000000 "ZERO" 0;
     ExampleEngine.purchaseOn 1711929599000 "TRAIN" 2.5].
Proof.
  apply (@filteredTransactions_cleared ExampleHost.host
           ExampleEngine.collation ExampleEngine.purchasesAndRefund
           ExampleEngine.openedPage);
    reflexivity.
Defined.

Lemma filteredTransactions_by_date_witness :
  earliestFirst
    (@TransactionsPage.filteredTransactions ExampleHost.host
       ExampleEngine.collation ExampleEngine.purchases
       ExampleEngine.openedPage).
Proof.
  apply (@filteredTransactions_by_date ExampleHost.host
           ExampleEngine.collation ExampleEngine.purchases
           ExampleEngine.openedPage).
  - reflexivity.
  - repeat constructor; discriminate.
Defined.

(* ================================================================== *)
(** ** The amount parser *)
(* ================================================================== *)

(** X26: a dollar sign, a comma or a white space anywhere in the text does
    not change the amount read, and the amount is never NaN. *)
Theorem parseAmount_decoration `{host : Host} (a b : JSString) (c : N) :
  c = 36%N \/ c = 44%N \/ isWhiteSpace c = true ->
  parseAmount (a ++ c :: b) = parseAmount (a ++ b)
  /\ is_nan (parseAmount (a ++ c :: b)) = false.
Proof.
  intros Hc. split; [|apply parseAmount_not_nan].
  unfold parseAmount, removeAll. rewrite !List.filter_app. simpl.
  assert (E : negb ((c =? 36)%N || (c =? 44)%N || isWhiteSpace c) = false).
  { destruct Hc as [-> | [-> | Hws]]; [reflexivity | reflexivity |].
    rewrite Hws. now rewrite orb_true_r. }
  rewrite E. reflexivity.
Qed.

Lemma parseAmount_decoration_witness :
  @parseAmount ExampleHost.host (js "$1,250.00") = 1250%float.
Proof.
  destruct (@parseAmount_decoration ExampleHost.host (js "$1") (js "250.00")
              44%N) as [Hsame _].
  - right; left; reflexivity.
  - change (js "$1,250.00") with (js "$1" ++ 44%N :: js "250.00").
    rewrite Hsame. vm_compute. reflexivity.
Defined.
